(** * opmonlib: the monitoring tree and the measurement container

    A shallow embedding of [src/MonitorableObject.cpp] (registration, publish
    and collect on a tree of monitorable objects) and of
    [opmonlib/OpMonContainer.hpp] (the reflective flattening of a protobuf
    message into an [OpMonEntry]), followed by the properties that the
    design document states about them. *)

From Stdlib Require Import ZArith String List Lia OrderedTypeEx.
From stdpp Require Import base gmap strings list.

Local Open Scope Z_scope.

(* The nested types below come with induction principles of their own. *)
#[local] Set Warnings "-register-all".

(** ** Machine integers *)

(** An unsigned integer of [bits] bits holds the residues modulo [2^bits];
    every arithmetic result is reduced. *)
Definition wrap (bits : positive) (z : Z) : Z := z mod 2 ^ Z.pos bits.

(** [unsigned int], the type of the local [n_invalid_links] in [collect]. *)
Definition unsigned_int_bits : positive := 32%positive.

(** ** google::protobuf: descriptors, reflection, time *)

Module protobuf.

(** [FieldDescriptor::CppType]. *)
Inductive CppType : Set :=
| CPPTYPE_INT32 | CPPTYPE_INT64 | CPPTYPE_UINT32 | CPPTYPE_UINT64
| CPPTYPE_DOUBLE | CPPTYPE_FLOAT | CPPTYPE_BOOL | CPPTYPE_ENUM
| CPPTYPE_STRING | CPPTYPE_MESSAGE.

(** What the code reads from a [FieldDescriptor]. *)
Record FieldDescriptor : Set := {
  name : string;
  is_repeated : bool;
  cpp_type : CppType }.

(** A message as the code sees it: its type name, the fields of its
    descriptor in index order ([des.field(i)] for [0 <= i < field_count()])
    and the reflection getter for 32-bit integers. *)
Record Message : Type := {
  GetTypeName : string;
  GetDescriptor : list FieldDescriptor;
  GetInt32 : FieldDescriptor -> Z }.

(** [google::protobuf::Timestamp], as a count since the epoch. *)
Definition Timestamp : Set := Z.

End protobuf.
Import protobuf.

(** ** opmon: the generic entry and the tree aggregate *)

Definition ElementId : Set := string.
Definition OpMonId : Set := string.
Definition CustomOrigin : Type := gmap string string.
Definition OpMonLevel : Set := Z.

(** [opmon::OpMonValue]: a tagged scalar; a default-constructed value has no
    kind set. The code sets the 32-bit integer kind only. *)
Inductive OpMonValue : Set :=
| VALUE_NOT_SET
| int4_value (v : Z).

(** [opmon::OpMonEntry], with the fields the two source files write. *)
Record OpMonEntry : Type := {
  time : Timestamp;
  origin : OpMonId;
  opmon_id : string;
  measurement : string;
  data : gmap string OpMonValue }.

Definition default_entry : OpMonEntry :=
  {| time := 0; origin := ""; opmon_id := ""; measurement := ""; data := ∅ |}.

Definition set_time (t : Timestamp) (e : OpMonEntry) : OpMonEntry :=
  {| time := t; origin := origin e; opmon_id := opmon_id e;
     measurement := measurement e; data := data e |}.
Definition set_origin (o : OpMonId) (e : OpMonEntry) : OpMonEntry :=
  {| time := time e; origin := o; opmon_id := opmon_id e;
     measurement := measurement e; data := data e |}.
Definition set_opmon_id (i : string) (e : OpMonEntry) : OpMonEntry :=
  {| time := time e; origin := origin e; opmon_id := i;
     measurement := measurement e; data := data e |}.
Definition set_measurement (m : string) (e : OpMonEntry) : OpMonEntry :=
  {| time := time e; origin := origin e; opmon_id := opmon_id e;
     measurement := m; data := data e |}.
Definition set_data (d : gmap string OpMonValue) (e : OpMonEntry) : OpMonEntry :=
  {| time := time e; origin := origin e; opmon_id := opmon_id e;
     measurement := measurement e; data := d |}.

(** [opmon::MonitoringTreeInfo]: the eight fields [collect] fills. *)
Record MonitoringTreeInfo : Set := {
  n_registered_nodes : Z;
  n_publishing_nodes : Z;
  n_invalid_links : Z;
  n_published_measurements : Z;
  n_ignored_measurements : Z;
  n_errors : Z;
  cpu_elapsed_time_us : Z;
  clockwall_elapsed_time_us : Z }.

(** A default-constructed protobuf message has every scalar field at zero. *)
Definition default_info : MonitoringTreeInfo :=
  {| n_registered_nodes := 0; n_publishing_nodes := 0; n_invalid_links := 0;
     n_published_measurements := 0; n_ignored_measurements := 0; n_errors := 0;
     cpu_elapsed_time_us := 0; clockwall_elapsed_time_us := 0 |}.

(** ** OpMonContainer *)

Module OpMonContainer.

Record container : Type := { m_entries : list OpMonEntry }.

Definition empty : container := {| m_entries := [] |}.

Definition entries (c : container) : list OpMonEntry := m_entries c.

(** The body of the loop over the descriptor's fields (lines 53-68):
    a repeated field is skipped by [continue]; otherwise the value is set
    and [success] stays true for [CPPTYPE_INT32] only, and the field is
    stored under its name when [success] holds. *)
Definition add_field (m : Message) (entry : OpMonEntry)
    (field_p : FieldDescriptor) : OpMonEntry :=
  if is_repeated field_p then entry
  else
    let name := name field_p in
    let type := cpp_type field_p in
    let '(value, success) :=
      match type with
      | CPPTYPE_INT32 => (int4_value (GetInt32 m field_p), true)
      | _ => (VALUE_NOT_SET, false)
      end in
    if success then set_data (<[name := value]> (data entry)) entry
    else entry.

(** The fields the loop stores: not repeated, and of the one kind the
    switch maps to a value. *)
Definition kind_mapped (f : FieldDescriptor) : Prop :=
  is_repeated f = false /\ cpp_type f = CPPTYPE_INT32.

(** The entry [add] builds before it decides whether to keep it
    (lines 36-69). *)
Definition build_entry (timestamp : Timestamp) (m : Message) (id : string)
    : OpMonEntry :=
  let entry := default_entry in
  let entry := set_time timestamp entry in
  let entry := set_opmon_id id entry in
  let entry := set_measurement (GetTypeName m) entry in
  fold_left (add_field m) (GetDescriptor m) entry.

(** [OpMonContainer::add]; [timestamp] is what
    [TimeUtil::GetCurrentTime()] returned. *)
Definition add (timestamp : Timestamp) (m : Message) (id : string)
    (c : container) : container :=
  let entry := build_entry timestamp m id in
  if decide (0 < size (data entry))%nat
  then {| m_entries := m_entries c ++ [entry] |}
  else c.

(** One call of [add] with its arguments, and a history of such calls
    applied to a container in order. *)
Definition call : Type := Timestamp * Message * string.

Definition run (calls : list call) (c : container) : container :=
  fold_left (fun c '(timestamp, m, id) => add timestamp m id c) calls c.

End OpMonContainer.

(** ** What the node code takes from headers outside the sources *)

(** The declarations [MonitorableObject.cpp] uses from
    [opmonlib/MonitorableObject.hpp], [opmonlib/Utils.hpp], the schema of
    [MonitoringTreeInfo] and [<chrono>], none of which is among the sources.
    They are parameters of the development: the bit widths of the unsigned
    fields of [MonitoringTreeInfo] (each running counter of a node has the
    type of the field it is exchanged into), the resolution of
    [high_resolution_clock], the flattening [to_entry] of a message, and the
    composition and printing of identifiers. *)
Class Headers : Type := {
  node_count_bits : positive;
  metric_bits : positive;
  time_bits : positive;
  ticks_per_microsecond : positive;
  to_entry : Message -> CustomOrigin -> OpMonEntry;
  append_element : OpMonId -> ElementId -> OpMonId;
  to_string : OpMonId -> string }.

(** Modelled from the spec: [MonitorableObject::publishable_metric] is
    declared in the header, which is not among the sources; "a measurement
    publishes iff its level ≤ configured level". *)
Definition publishable_metric (entry system : OpMonLevel) : bool :=
  entry <=? system.

Definition TLVL_MONITORING_STEPS : Z := 10.
Definition TLVL_LEVEL_SUPPRESSION : Z := 20.

(** ** Issues, exceptions and diagnostics *)

Inductive IssueClass : Set :=
| NonUniqueNodeName (name : ElementId) (opmon_id : string)
| EntryWithNoData (measurement : string)
| ErrorWhileCollecting (opmon_id : string)
| OpMonPublishFailure
| StdIssue (what : string)
| OtherIssue (what : string).

(** An [ers::Issue] owns its cause, so a cause chain is finite. *)
Inductive Issue : Set :=
  mkIssue { issue_class : IssueClass; cause : option Issue }.

(** What a [throw] can carry, as far as the catch clauses tell apart: an
    [ers::Issue], another [std::exception], anything else. *)
Inductive Thrown : Set :=
| ThrownIssue (i : Issue)
| ThrownStdException (what : string)
| ThrownOther.

Inductive Outcome (A : Type) : Type :=
| Normal (a : A)
| Raised (t : Thrown).
Arguments Normal {A} a.
Arguments Raised {A} t.

Inductive Diagnostic : Set :=
| ers_warning (i : Issue)
| ers_error (i : Issue)
| TLOG (text : string)
| TLOG_DEBUG (lvl : Z) (text : string).

(** ** The facility and the world around a node *)

(** An [OpMonFacility]: its [publish] either takes the entry or throws
    [OpMonPublishFailure], the one failure its interface has. *)
Record Facility : Type := {
  facility_name : string;
  accepts : OpMonEntry -> bool }.

(** The world outside the tree: the successive readings of
    [high_resolution_clock::now()] (in ticks) and of
    [TimeUtil::GetCurrentTime()] with the number of readings taken so far,
    the entries handed to a facility's [publish] (oldest first, with the
    facility's name), and the diagnostics reported (oldest first). *)
Record World : Type := {
  clock : nat -> Z;
  clock_reads : nat;
  current_time : nat -> Timestamp;
  current_time_reads : nat;
  sink : list (string * OpMonEntry);
  diagnostics : list Diagnostic }.

Definition now (w : World) : Z * World :=
  (clock w (clock_reads w),
   {| clock := clock w; clock_reads := S (clock_reads w);
      current_time := current_time w;
      current_time_reads := current_time_reads w;
      sink := sink w; diagnostics := diagnostics w |}).

Definition GetCurrentTime (w : World) : Timestamp * World :=
  (current_time w (current_time_reads w),
   {| clock := clock w; clock_reads := clock_reads w;
      current_time := current_time w;
      current_time_reads := S (current_time_reads w);
      sink := sink w; diagnostics := diagnostics w |}).

Definition report (d : Diagnostic) (w : World) : World :=
  {| clock := clock w; clock_reads := clock_reads w;
     current_time := current_time w;
     current_time_reads := current_time_reads w;
     sink := sink w; diagnostics := diagnostics w ++ [d] |}.

Definition hand_over (f : Facility) (e : OpMonEntry) (w : World) : World :=
  {| clock := clock w; clock_reads := clock_reads w;
     current_time := current_time w;
     current_time_reads := current_time_reads w;
     sink := sink w ++ [(facility_name f, e)];
     diagnostics := diagnostics w |}.

(** [duration_cast<microseconds>(stop - start).count()]: the cast truncates
    toward zero. *)
Definition duration_us `{Headers} (start_time stop_time : Z) : Z :=
  Z.quot (stop_time - start_time) (Z.pos ticks_per_microsecond).

(** ** MonitorableObject *)

Module MonitorableObject.

(** One call [publish(m, co, l)] made by a generation hook. *)
Record PublishCall : Type := {
  call_message : Message;
  call_origin : CustomOrigin;
  call_level : OpMonLevel }.

(** How a run of the virtual [generate_opmon_data()] ends. *)
Inductive HookExit : Set :=
| hook_returns
| hook_throws (t : Thrown).

(** The override of [generate_opmon_data()] a concrete object carries, as
    the node observes it: [publish] returns nothing, so a run is the
    sequence of its [publish] calls and the way it ends. *)
Record Generator : Type := {
  publishes : list PublishCall;
  exit : HookExit }.

(** A monitorable object with the members the source file uses. A
    [std::weak_ptr] of the registry is [None] once its object is gone
    (expired) and [Some p] while the object [p] is alive; [m_nodes] is the
    [std::map], as the list of its entries in key order. *)
Inductive t : Type := mk {
  m_opmon_name : ElementId;
  m_parent_id : OpMonId;
  m_opmon_level : OpMonLevel;
  m_facility : Facility;
  m_published_counter : Z;
  m_ignored_counter : Z;
  m_error_counter : Z;
  m_cpu_us_counter : Z;
  m_generator : Generator;
  m_nodes : list (ElementId * option t) }.

Abbreviation weak_ptr := (option t).
Abbreviation registry := (list (ElementId * option t)).

Definition expired (wp : weak_ptr) : bool :=
  match wp with None => true | Some _ => false end.

Definition lock (wp : weak_ptr) : option t := wp.

(** *** Member updates *)

Definition set_published_counter (v : Z) (o : t) : t :=
  mk (m_opmon_name o) (m_parent_id o) (m_opmon_level o) (m_facility o)
     v (m_ignored_counter o) (m_error_counter o) (m_cpu_us_counter o)
     (m_generator o) (m_nodes o).
Definition set_ignored_counter (v : Z) (o : t) : t :=
  mk (m_opmon_name o) (m_parent_id o) (m_opmon_level o) (m_facility o)
     (m_published_counter o) v (m_error_counter o) (m_cpu_us_counter o)
     (m_generator o) (m_nodes o).
Definition set_error_counter (v : Z) (o : t) : t :=
  mk (m_opmon_name o) (m_parent_id o) (m_opmon_level o) (m_facility o)
     (m_published_counter o) (m_ignored_counter o) v (m_cpu_us_counter o)
     (m_generator o) (m_nodes o).
Definition set_cpu_us_counter (v : Z) (o : t) : t :=
  mk (m_opmon_name o) (m_parent_id o) (m_opmon_level o) (m_facility o)
     (m_published_counter o) (m_ignored_counter o) (m_error_counter o) v
     (m_generator o) (m_nodes o).
Definition set_nodes (nodes : registry) (o : t) : t :=
  mk (m_opmon_name o) (m_parent_id o) (m_opmon_level o) (m_facility o)
     (m_published_counter o) (m_ignored_counter o) (m_error_counter o)
     (m_cpu_us_counter o) (m_generator o) nodes.
Definition set_opmon_name (name : ElementId) (o : t) : t :=
  mk name (m_parent_id o) (m_opmon_level o) (m_facility o)
     (m_published_counter o) (m_ignored_counter o) (m_error_counter o)
     (m_cpu_us_counter o) (m_generator o) (m_nodes o).
Definition set_inherited (f : Facility) (parent_id : OpMonId)
    (l : OpMonLevel) (o : t) : t :=
  mk (m_opmon_name o) parent_id l f
     (m_published_counter o) (m_ignored_counter o) (m_error_counter o)
     (m_cpu_us_counter o) (m_generator o) (m_nodes o).

(** *** The registry: [std::map<ElementId, std::weak_ptr>] *)

(** [m_nodes.find(name)]: the search follows the key order. *)
Fixpoint find (name : ElementId) (nodes : registry) : option weak_ptr :=
  match nodes with
  | [] => None
  | (k, wp) :: rest =>
      match String.compare name k with
      | Eq => Some wp
      | Lt => None
      | Gt => find name rest
      end
  end.

(** [m_nodes[name] = p]: the entry of [name] is overwritten, or a new one
    is put at its place in the key order. *)
Fixpoint assign (name : ElementId) (p : weak_ptr) (nodes : registry)
    : registry :=
  match nodes with
  | [] => [(name, p)]
  | (k, wp) :: rest =>
      match String.compare name k with
      | Eq => (name, p) :: rest
      | Lt => (name, p) :: (k, wp) :: rest
      | Gt => (k, wp) :: assign name p rest
      end
  end.

Section WithHeaders.
Context `{Headers}.

(** Modelled from the spec: [get_opmon_id()] and [get_opmon_level()] are
    defined in the header, which is not among the sources; the identifier
    of a node is hierarchical, the parent's identifier extended by the
    node's own name. *)
Definition get_opmon_id (self : t) : OpMonId :=
  append_element (m_parent_id self) (m_opmon_name self).
Definition get_opmon_level (self : t) : OpMonLevel := m_opmon_level self.

(** *** inherit_parent_properties (lines 193-210) *)

Definition inherit_children (inherit : t -> t) (nodes : registry)
    : registry :=
  List.map (fun '(key, wp) =>
              (key, match lock wp with
                    | Some p => Some (inherit p)
                    | None => None
                    end)) nodes.

(** The three properties read from [parent] are passed by value. *)
Fixpoint inherit_properties (parent_facility : Facility)
    (parent_id : OpMonId) (parent_level : OpMonLevel) (self : t) : t :=
  let self1 := set_inherited parent_facility parent_id parent_level self in
  set_nodes
    (inherit_children
       (inherit_properties (m_facility self1) (get_opmon_id self1)
          (get_opmon_level self1))
       (m_nodes self))
    self1.

Definition inherit_parent_properties (parent self : t) : t :=
  inherit_properties (m_facility parent) (get_opmon_id parent)
    (get_opmon_level parent) self.

(** *** register_node (lines 32-55) *)

(** The result is the outcome for the caller, the parent [self], the child
    [p] and the world after the call. The owner of [p] keeps it alive, so
    the weak pointer stored for it resolves to [p] as the call leaves it. *)
Definition register_node (name : ElementId) (p : t) (self : t) (w : World)
    : Outcome unit * t * t * World :=
  let install (w : World) :=
    let p := set_opmon_name name p in
    let p := inherit_parent_properties self p in
    let self := set_nodes (assign name (Some p) (m_nodes self)) self in
    let w := report (TLOG ("Node " +:+ name +:+ " registered to "
                           +:+ to_string (get_opmon_id self))) w in
    (Normal tt, self, p, w) in
  match find name (m_nodes self) with
  | Some it =>
      if expired it then
        install
          (report (ers_warning
                     (mkIssue (NonUniqueNodeName name
                                 (to_string (get_opmon_id self))) None)) w)
      else
        (Raised (ThrownIssue
                   (mkIssue (NonUniqueNodeName name
                               (to_string (get_opmon_id self))) None)),
         self, p, w)
  | None => install w
  end.

(** *** publish (lines 58-98) *)

Definition publish (m : Message) (co : CustomOrigin) (l : OpMonLevel)
    (self : t) (w : World) : t * World :=
  let '(timestamp, w) := GetCurrentTime w in
  let '(start_time, w) := now w in
  if negb (publishable_metric l (get_opmon_level self)) then
    let w := report (TLOG_DEBUG TLVL_LEVEL_SUPPRESSION
                       ("Metric " +:+ GetTypeName m
                        +:+ " ignored because of the level")) w in
    (set_ignored_counter (wrap metric_bits (m_ignored_counter self + 1)) self,
     w)
  else
    let e := to_entry m co in
    if decide (data e = ∅) then
      (self,
       report (ers_warning (mkIssue (EntryWithNoData (measurement e)) None))
         w)
    else
      let e := set_origin (get_opmon_id self) e in
      let e := set_time timestamp e in
      (* try { m_facility.load()->publish(std::move(e)); ... }
         catch ( const OpMonPublishFailure & ) { ... } *)
      let w := hand_over (m_facility self) e w in
      let '(self, w) :=
        if accepts (m_facility self) e then
          (set_published_counter
             (wrap metric_bits (m_published_counter self + 1)) self, w)
        else
          (set_error_counter
             (wrap metric_bits (m_error_counter self + 1)) self,
           report (ers_error (mkIssue OpMonPublishFailure None)) w) in
      let '(stop_time, w) := now w in
      let duration := duration_us start_time stop_time in
      (set_cpu_us_counter (wrap time_bits (m_cpu_us_counter self + duration))
         self,
       w).

(** *** collect (lines 101-177) *)

(** A run of the hook: its [publish] calls in order, then its exit. What
    the calls did to the counters stays when the hook throws. *)
Definition run_publishes (calls : list PublishCall) (s : t * World)
    : t * World :=
  fold_left
    (fun '(self, w) c =>
       publish (call_message c) (call_origin c) (call_level c) self w)
    calls s.

Definition generate_opmon_data (s : t * World) : Outcome unit * (t * World) :=
  let s' := run_publishes (publishes (m_generator (fst s))) s in
  match exit (m_generator (fst s)) with
  | hook_returns => (Normal tt, s')
  | hook_throws t => (Raised t, s')
  end.

(** [try { body } catch ...]: the first clause that matches what was thrown
    runs; with no matching clause the exception leaves the block. *)
Definition catch_clause (S : Type) : Type := Thrown -> option (S -> S).

Fixpoint first_match {S : Type} (clauses : list (catch_clause S))
    (t : Thrown) : option (S -> S) :=
  match clauses with
  | [] => None
  | c :: rest =>
      match c t with
      | Some handler => Some handler
      | None => first_match rest t
      end
  end.

Definition try_catch {S : Type} (body : S -> Outcome unit * S)
    (clauses : list (catch_clause S)) (s : S) : Outcome unit * S :=
  match body s with
  | (Normal a, s') => (Normal a, s')
  | (Raised t, s') =>
      match first_match clauses t with
      | Some handler => (Normal tt, handler s')
      | None => (Raised t, s')
      end
  end.

Definition increment_error_counter (self : t) : t :=
  set_error_counter (wrap metric_bits (m_error_counter self + 1)) self.

(** [while ( cause_ptr ) { ++m_error_counter; cause_ptr = cause_ptr->cause(); }]
    entered with [cause_ptr] pointing to [i]. *)
Fixpoint count_causes (i : Issue) (self : t) : t :=
  let self := increment_error_counter self in
  match cause i with
  | Some c => count_causes c self
  | None => self
  end.

(** [catch ( const ers::Issue & i )] (lines 113-120). *)
Definition catch_issue : catch_clause (t * World) := fun thrown =>
  match thrown with
  | ThrownIssue i =>
      Some (fun '(self, w) =>
        let self := increment_error_counter self in
        let self :=
          match cause i with
          | Some cause_ptr => count_causes cause_ptr self
          | None => self
          end in
        (self,
         report (ers_error
                   (mkIssue (ErrorWhileCollecting
                               (to_string (get_opmon_id self))) (Some i)))
           w))
  | _ => None
  end.

(** [catch ( const std::exception & e )] (lines 121-123); an [ers::Issue]
    is a [std::exception] too. *)
Definition catch_std_exception : catch_clause (t * World) := fun thrown =>
  let handler (what : string) :=
    Some (fun '(self, w) =>
      let self := increment_error_counter self in
      (self,
       report (ers_error
                 (mkIssue (ErrorWhileCollecting
                             (to_string (get_opmon_id self)))
                    (Some (mkIssue (StdIssue what) None))))
         w)) in
  match thrown with
  | ThrownIssue i => handler "ers::Issue"
  | ThrownStdException what => handler what
  | ThrownOther => None
  end.

(** [catch (...)] (lines 124-126). *)
Definition catch_all : catch_clause (t * World) := fun _ =>
  Some (fun '(self, w) =>
    let self := increment_error_counter self in
    (self,
     report (ers_error
               (mkIssue (ErrorWhileCollecting
                           (to_string (get_opmon_id self))) None))
       w)).

(** Lines 111-127. *)
Definition try_generate_opmon_data : t * World -> Outcome unit * (t * World) :=
  try_catch generate_opmon_data
    [catch_issue; catch_std_exception; catch_all].

(** *** Setters of [MonitoringTreeInfo]

    A setter takes a value of the type of its field: whatever integer it
    is given is converted to that unsigned type. *)

Definition set_n_registered_nodes (v : Z) (i : MonitoringTreeInfo) :=
  {| n_registered_nodes := wrap node_count_bits v;
     n_publishing_nodes := n_publishing_nodes i;
     n_invalid_links := n_invalid_links i;
     n_published_measurements := n_published_measurements i;
     n_ignored_measurements := n_ignored_measurements i;
     n_errors := n_errors i;
     cpu_elapsed_time_us := cpu_elapsed_time_us i;
     clockwall_elapsed_time_us := clockwall_elapsed_time_us i |}.
Definition set_n_publishing_nodes (v : Z) (i : MonitoringTreeInfo) :=
  {| n_registered_nodes := n_registered_nodes i;
     n_publishing_nodes := wrap node_count_bits v;
     n_invalid_links := n_invalid_links i;
     n_published_measurements := n_published_measurements i;
     n_ignored_measurements := n_ignored_measurements i;
     n_errors := n_errors i;
     cpu_elapsed_time_us := cpu_elapsed_time_us i;
     clockwall_elapsed_time_us := clockwall_elapsed_time_us i |}.
Definition set_n_invalid_links (v : Z) (i : MonitoringTreeInfo) :=
  {| n_registered_nodes := n_registered_nodes i;
     n_publishing_nodes := n_publishing_nodes i;
     n_invalid_links := wrap node_count_bits v;
     n_published_measurements := n_published_measurements i;
     n_ignored_measurements := n_ignored_measurements i;
     n_errors := n_errors i;
     cpu_elapsed_time_us := cpu_elapsed_time_us i;
     clockwall_elapsed_time_us := clockwall_elapsed_time_us i |}.
Definition set_n_published_measurements (v : Z) (i : MonitoringTreeInfo) :=
  {| n_registered_nodes := n_registered_nodes i;
     n_publishing_nodes := n_publishing_nodes i;
     n_invalid_links := n_invalid_links i;
     n_published_measurements := wrap metric_bits v;
     n_ignored_measurements := n_ignored_measurements i;
     n_errors := n_errors i;
     cpu_elapsed_time_us := cpu_elapsed_time_us i;
     clockwall_elapsed_time_us := clockwall_elapsed_time_us i |}.
Definition set_n_ignored_measurements (v : Z) (i : MonitoringTreeInfo) :=
  {| n_registered_nodes := n_registered_nodes i;
     n_publishing_nodes := n_publishing_nodes i;
     n_invalid_links := n_invalid_links i;
     n_published_measurements := n_published_measurements i;
     n_ignored_measurements := wrap metric_bits v;
     n_errors := n_errors i;
     cpu_elapsed_time_us := cpu_elapsed_time_us i;
     clockwall_elapsed_time_us := clockwall_elapsed_time_us i |}.
Definition set_n_errors (v : Z) (i : MonitoringTreeInfo) :=
  {| n_registered_nodes := n_registered_nodes i;
     n_publishing_nodes := n_publishing_nodes i;
     n_invalid_links := n_invalid_links i;
     n_published_measurements := n_published_measurements i;
     n_ignored_measurements := n_ignored_measurements i;
     n_errors := wrap metric_bits v;
     cpu_elapsed_time_us := cpu_elapsed_time_us i;
     clockwall_elapsed_time_us := clockwall_elapsed_time_us i |}.
Definition set_cpu_elapsed_time_us (v : Z) (i : MonitoringTreeInfo) :=
  {| n_registered_nodes := n_registered_nodes i;
     n_publishing_nodes := n_publishing_nodes i;
     n_invalid_links := n_invalid_links i;
     n_published_measurements := n_published_measurements i;
     n_ignored_measurements := n_ignored_measurements i;
     n_errors := n_errors i;
     cpu_elapsed_time_us := wrap time_bits v;
     clockwall_elapsed_time_us := clockwall_elapsed_time_us i |}.
Definition set_clockwall_elapsed_time_us (v : Z) (i : MonitoringTreeInfo) :=
  {| n_registered_nodes := n_registered_nodes i;
     n_publishing_nodes := n_publishing_nodes i;
     n_invalid_links := n_invalid_links i;
     n_published_measurements := n_published_measurements i;
     n_ignored_measurements := n_ignored_measurements i;
     n_errors := n_errors i;
     cpu_elapsed_time_us := cpu_elapsed_time_us i;
     clockwall_elapsed_time_us := wrap time_bits v |}.

(** Lines 129-135: each running counter is exchanged with zero into its
    field of the result. *)
Definition exchange_counters (info : MonitoringTreeInfo) (self : t)
    : MonitoringTreeInfo * t :=
  let info := set_n_published_measurements (m_published_counter self) info in
  let self := set_published_counter 0 self in
  let info := set_n_ignored_measurements (m_ignored_counter self) info in
  let self := set_ignored_counter 0 self in
  let info := set_n_errors (m_error_counter self) info in
  let self := set_error_counter 0 self in
  let info :=
    if decide (0 < n_published_measurements info)
    then set_n_publishing_nodes 1 info
    else info in
  let info := set_cpu_elapsed_time_us (m_cpu_us_counter self) info in
  let self := set_cpu_us_counter 0 self in
  (info, self).

(** Lines 150-156: what the loop does with the result of a child. *)
Definition merge_child_info (info child_info : MonitoringTreeInfo)
    : MonitoringTreeInfo :=
  let info :=
    set_n_registered_nodes
      (n_registered_nodes info + n_registered_nodes child_info) info in
  let info :=
    set_n_publishing_nodes
      (n_publishing_nodes info + n_publishing_nodes child_info) info in
  let info :=
    set_n_invalid_links
      (n_invalid_links info + n_invalid_links child_info) info in
  let info :=
    set_n_published_measurements
      (n_published_measurements info + n_published_measurements child_info)
      info in
  let info :=
    set_n_ignored_measurements
      (n_ignored_measurements info + n_ignored_measurements child_info)
      info in
  let info := set_n_errors (n_errors info + n_errors child_info) info in
  let info :=
    set_cpu_elapsed_time_us
      (cpu_elapsed_time_us info + cpu_elapsed_time_us child_info) info in
  info.

(** The loop over the registry (lines 144-166), from the iterator [it] on,
    for a given [collect] of the children. A child that resolves is
    collected and merged; the strong pointer [ptr] then keeps it alive
    through the test [it->second.expired()], so the entry stays. An entry
    that does not resolve is expired: it is erased and counted. The
    registry returned is what the loop leaves of the entries from [it]. *)
Fixpoint collect_children
    (collect : t -> World -> Outcome MonitoringTreeInfo * t * World)
    (it : registry) (info : MonitoringTreeInfo)
    (n_invalid_links_local : Z) (w : World)
    : Outcome (MonitoringTreeInfo * Z) * registry * World :=
  match it with
  | [] => (Normal (info, n_invalid_links_local), [], w)
  | (key, second) :: rest =>
      let '(merged, second, w) :=
        match lock second with
        | Some ptr =>
            match collect ptr w with
            | (Normal child_info, ptr, w) =>
                (Normal (merge_child_info info child_info), Some ptr, w)
            | (Raised thrown, ptr, w) => (Raised thrown, Some ptr, w)
            end
        | None => (Normal info, second, w)
        end in
      match merged with
      | Raised thrown => (Raised thrown, (key, second) :: rest, w)
      | Normal info =>
          if expired second then
            collect_children collect rest info
              (wrap unsigned_int_bits (n_invalid_links_local + 1)) w
          else
            let '(result, kept, w) :=
              collect_children collect rest info n_invalid_links_local w in
            (result, (key, second) :: kept, w)
      end
  end.

(** Lines 103-109: the start time is read, the trace is written and the
    result record is created. *)
Definition collect_enter (self : t) (w : World)
    : Z * MonitoringTreeInfo * World :=
  let '(start_time, w) := now w in
  let w := report (TLOG_DEBUG TLVL_MONITORING_STEPS
                     ("Collecting data from "
                      +:+ to_string (get_opmon_id self))) w in
  let info := default_info in
  let info := set_n_invalid_links 0 info in
  (start_time, info, w).

(** Lines 103-140: everything [collect] does before it walks the registry.
    An exception that no clause of the [try] block catches leaves here. *)
Definition collect_own (self : t) (w : World)
    : Outcome (Z * MonitoringTreeInfo) * t * World :=
  let '(start_time, info, w) := collect_enter self w in
  match try_generate_opmon_data (self, w) with
  | (Raised thrown, (self, w)) => (Raised thrown, self, w)
  | (Normal _, (self, w)) =>
      let '(info, self) := exchange_counters info self in
      let info :=
        set_n_registered_nodes (Z.of_nat (length (m_nodes self))) info in
      (Normal (start_time, info), self, w)
  end.

(** [MonitorableObject::collect]. The hook of the model calls [publish]
    only, so the registry the loop walks is the one [self] came with. *)
Fixpoint collect (self : t) (w : World) {struct self}
    : Outcome MonitoringTreeInfo * t * World :=
  match collect_own self w with
  | (Raised thrown, self1, w) => (Raised thrown, self1, w)
  | (Normal (start_time, info), self1, w) =>
      match collect_children collect (m_nodes self) info 0 w with
      | (Raised thrown, nodes, w) => (Raised thrown, set_nodes nodes self1, w)
      | (Normal (info, n_invalid_links_local), nodes, w) =>
          let info :=
            set_n_invalid_links
              (n_invalid_links info + n_invalid_links_local) info in
          let '(stop_time, w) := now w in
          let duration := duration_us start_time stop_time in
          let info :=
            set_clockwall_elapsed_time_us duration info in
          (Normal info, set_nodes nodes self1, w)
      end
  end.

(** The results of the children that resolve, in the order of the walk:
    each child is collected in the world its elder siblings left. *)
Fixpoint child_infos (it : registry) (w : World) : list MonitoringTreeInfo :=
  match it with
  | [] => []
  | (_, None) :: rest => child_infos rest w
  | (_, Some ptr) :: rest =>
      match collect ptr w with
      | (Normal child_info, _, w) => child_info :: child_infos rest w
      | (Raised _, _, _) => []
      end
  end.

End WithHeaders.

(** *** Measures of a tree, for the statements below *)

(** The sum of a measure over the children that are alive. *)
Fixpoint over_live (f : t -> Z) (nodes : registry) : Z :=
  match nodes with
  | [] => 0
  | (_, Some c) :: rest => f c + over_live f rest
  | (_, None) :: rest => over_live f rest
  end.

(** The live nodes reachable from a node, the node included. *)
Fixpoint live_nodes (self : t) : Z :=
  1 + over_live live_nodes (m_nodes self).

(** The registry entries, live or stale, held by a node and by the live
    nodes reachable from it. *)
Fixpoint registry_links (self : t) : Z :=
  Z.of_nat (length (m_nodes self)) + over_live registry_links (m_nodes self).

(** The stale entries of one registry. *)
Definition stale_here (nodes : registry) : Z :=
  Z.of_nat (length (List.filter (fun e => expired (snd e)) nodes)).

(** The stale entries held by a node and by the live nodes reachable from
    it. *)
Fixpoint stale_links (self : t) : Z :=
  stale_here (m_nodes self) + over_live stale_links (m_nodes self).

(** The same count as the code keeps it: the stale entries of one registry
    are counted in an [unsigned int]. *)
Fixpoint erased_links (self : t) : Z :=
  wrap unsigned_int_bits (stale_here (m_nodes self))
  + over_live erased_links (m_nodes self).

(** A property holds of every child that is alive. *)
Fixpoint all_live (P : t -> Prop) (nodes : registry) : Prop :=
  match nodes with
  | [] => True
  | (_, Some c) :: rest => P c /\ all_live P rest
  | (_, None) :: rest => all_live P rest
  end.

(** Every registry of the tree has fewer entries than an [unsigned int]
    can count. *)
Fixpoint countable_registries (self : t) : Prop :=
  Z.of_nat (length (m_nodes self)) < 2 ^ Z.pos unsigned_int_bits
  /\ all_live countable_registries (m_nodes self).

(** The sum of one field over a list of results. *)
Definition total (field : MonitoringTreeInfo -> Z)
    (infos : list MonitoringTreeInfo) : Z :=
  fold_right (fun i acc => field i + acc) 0 infos.

(** The links of the cause chain of an issue, the issue included. *)
Fixpoint chain_length (i : Issue) : nat :=
  S (match cause i with Some c => chain_length c | None => 0%nat end).

(** What a node looks like once [collect] has gone through it: counters
    at zero, stale entries gone, live children collected in turn. *)
Fixpoint prune (collected : t -> t) (nodes : registry) : registry :=
  match nodes with
  | [] => []
  | (key, Some c) :: rest => (key, Some (collected c)) :: prune collected rest
  | (_, None) :: rest => prune collected rest
  end.

Definition reset_counters (self : t) : t :=
  set_cpu_us_counter 0
    (set_error_counter 0
       (set_ignored_counter 0 (set_published_counter 0 self))).

Fixpoint collected (self : t) : t :=
  set_nodes (prune collected (m_nodes self)) (reset_counters self).

(** The entry [publish] hands to the facility. *)
Definition stamped `{Headers} (m : Message) (co : CustomOrigin) (self : t)
    (w : World) : OpMonEntry :=
  set_time (current_time w (current_time_reads w))
    (set_origin (get_opmon_id self) (to_entry m co)).

(** Every field of a result holds a value of its unsigned type. *)
Definition in_range `{Headers} (i : MonitoringTreeInfo) : Prop :=
  wrap node_count_bits (n_registered_nodes i) = n_registered_nodes i
  /\ wrap node_count_bits (n_publishing_nodes i) = n_publishing_nodes i
  /\ wrap node_count_bits (n_invalid_links i) = n_invalid_links i
  /\ wrap metric_bits (n_published_measurements i)
     = n_published_measurements i
  /\ wrap metric_bits (n_ignored_measurements i) = n_ignored_measurements i
  /\ wrap metric_bits (n_errors i) = n_errors i
  /\ wrap time_bits (cpu_elapsed_time_us i) = cpu_elapsed_time_us i
  /\ wrap time_bits (clockwall_elapsed_time_us i)
     = clockwall_elapsed_time_us i.

(** What [ers::error] is given by the catch clauses of [collect] for what
    was thrown. *)
Definition summary (opmon_id : string) (thrown : Thrown) : Issue :=
  mkIssue (ErrorWhileCollecting opmon_id)
    match thrown with
    | ThrownIssue i => Some i
    | ThrownStdException what => Some (mkIssue (StdIssue what) None)
    | ThrownOther => None
    end.

(** The result record as it stands when the walk starts (lines 107-140),
    for the state [self1] in which the [try] block left the object. *)
Definition own_info `{Headers} (self1 : t) : MonitoringTreeInfo :=
  set_n_registered_nodes (Z.of_nat (length (m_nodes self1)))
    (fst (exchange_counters (set_n_invalid_links 0 default_info) self1)).

(** Two states of an object that differ in the running counters only. *)
Definition counters_only (self self' : t) : Prop :=
  m_nodes self' = m_nodes self
  /\ m_generator self' = m_generator self
  /\ m_opmon_name self' = m_opmon_name self
  /\ m_parent_id self' = m_parent_id self
  /\ m_opmon_level self' = m_opmon_level self
  /\ m_facility self' = m_facility self.

(** The number of times a catch clause of [collect] increments the error
    counter for what was thrown. *)
Definition links (thrown : Thrown) : nat :=
  match thrown with
  | ThrownIssue i => chain_length i
  | ThrownStdException _ => 1%nat
  | ThrownOther => 1%nat
  end.

(** *** set_opmon_level (lines 180-191) *)

Definition set_level (l : OpMonLevel) (o : t) : t :=
  mk (m_opmon_name o) (m_parent_id o) l (m_facility o)
     (m_published_counter o) (m_ignored_counter o) (m_error_counter o)
     (m_cpu_us_counter o) (m_generator o) (m_nodes o).

(** [for ( const auto & [key,wp] : m_nodes )] with a body that locks [wp]
    and calls a member of the child when the pointer resolves; an expired
    entry is passed over and stays in the registry. *)
Definition for_each_live (visit : t -> t) (nodes : registry) : registry :=
  List.map (fun '(key, wp) =>
              (key, match lock wp with
                    | Some p => Some (visit p)
                    | None => None
                    end)) nodes.

Fixpoint set_opmon_level (l : OpMonLevel) (self : t) : t :=
  let self1 := set_level l self in
  set_nodes (for_each_live (set_opmon_level l) (m_nodes self)) self1.

(** *** Further measures and predicates, for the statements below *)

(** A property holds of a node and of every live node reachable from it. *)
Fixpoint all_nodes (P : t -> Prop) (self : t) : Prop :=
  P self /\ all_live (all_nodes P) (m_nodes self).

(** The sum of a quantity over a node and the live nodes reachable from
    it. *)
Fixpoint tree_sum (f : t -> Z) (self : t) : Z :=
  f self + over_live (tree_sum f) (m_nodes self).

(** The keys of a registry, each with whether its entry is expired. *)
Definition shape (nodes : registry) : list (ElementId * bool) :=
  List.map (fun e => (fst e, expired (snd e))) nodes.

(** The keys of a registry are strictly increasing, as in a [std::map]. *)
Fixpoint ordered (nodes : registry) : Prop :=
  match nodes with
  | [] => True
  | (k, _) :: rest =>
      Forall (fun e => String.compare k (fst e) = Lt) rest /\ ordered rest
  end.

(** The hook of a node is the default one: it publishes nothing and
    returns. *)
Definition quiet (self : t) : Prop :=
  publishes (m_generator self) = [] /\ exit (m_generator self) = hook_returns.

Definition counters_at_zero (self : t) : Prop :=
  m_published_counter self = 0 /\ m_ignored_counter self = 0
  /\ m_error_counter self = 0 /\ m_cpu_us_counter self = 0.

(** Below a node, every live child has the facility and the level of its
    parent and the identifier of its parent as parent identifier. *)
Fixpoint inherited_below `{Headers} (self : t) : Prop :=
  all_live
    (fun c =>
       m_facility c = m_facility self
       /\ m_opmon_level c = m_opmon_level self
       /\ m_parent_id c = get_opmon_id self
       /\ inherited_below c)
    (m_nodes self).

(** The second world has all that the first had handed to facilities and
    reported, and maybe more; what was handed over in between has data;
    the clocks are the same and no reading is taken back. *)
Definition grows (w w' : World) : Prop :=
  (exists handed,
      sink w' = sink w ++ handed
      /\ Forall (fun he => data (snd he) <> ∅) handed)
  /\ (exists reported, diagnostics w' = diagnostics w ++ reported)
  /\ clock w' = clock w
  /\ current_time w' = current_time w
  /\ (clock_reads w <= clock_reads w')%nat
  /\ (current_time_reads w <= current_time_reads w')%nat.

(** What one node contributes to [n_publishing_nodes]. *)
Definition publishing `{Headers} (self : t) : Z :=
  if decide (0 < wrap metric_bits (m_published_counter self)) then 1 else 0.

End MonitorableObject.

(** ** Concrete objects *)

(** A platform, a tree and a few measurements on which the statements below
    are evaluated. *)
Module Sample.
Import MonitorableObject.

(** 32-bit node counts, 64-bit measurement counts and times, a clock that
    ticks in nanoseconds; a message is flattened the way the container
    does it. *)
Definition headers : Headers :=
  {| node_count_bits := 32; metric_bits := 64; time_bits := 64;
     ticks_per_microsecond := 1000;
     to_entry := fun m _ => OpMonContainer.build_entry 0 m "";
     append_element := fun parent name => parent +:+ "." +:+ name;
     to_string := fun id => id |}.

Definition accepting : Facility :=
  {| facility_name := "accepting"; accepts := fun _ => true |}.

Definition idle : Generator := {| publishes := []; exit := hook_returns |}.

Definition node (name : ElementId) (hook : Generator) (nodes : registry)
    : t :=
  mk name "" 0 accepting 0 0 0 0 hook nodes.

Definition leaf (name : ElementId) : t := node name idle [].

(** A root with a live child [A] and a child [B] whose owner dropped it. *)
Definition root : t :=
  node "R" idle [("A"%string, Some (leaf "A")); ("B"%string, None)].

(** A root with one live child. *)
Definition parent : t := node "P" idle [("C"%string, Some (leaf "C"))].

(** The clock reads 0, 10, 50 and 60 microseconds, then stands still. *)
Definition world : World :=
  {| clock := fun n =>
                match n with
                | 0%nat => 0
                | 1%nat => 10000
                | 2%nat => 50000
                | _ => 60000
                end;
     clock_reads := 0;
     current_time := fun n => Z.of_nat n;
     current_time_reads := 0;
     sink := [];
     diagnostics := [] |}.

Definition field_x : FieldDescriptor :=
  {| name := "x"; is_repeated := false; cpp_type := CPPTYPE_INT32 |}.
Definition field_ys : FieldDescriptor :=
  {| name := "ys"; is_repeated := true; cpp_type := CPPTYPE_INT32 |}.
Definition field_label : FieldDescriptor :=
  {| name := "label"; is_repeated := false; cpp_type := CPPTYPE_STRING |}.

(** A measurement with [x = 5] and a repeated field. *)
Definition measurement_x5 : Message :=
  {| GetTypeName := "Sample.X"; GetDescriptor := [field_x; field_ys];
     GetInt32 := fun _ => 5 |}.

(** A measurement with no field of a mapped kind. *)
Definition measurement_unmapped : Message :=
  {| GetTypeName := "Sample.U"; GetDescriptor := [field_label; field_ys];
     GetInt32 := fun _ => 0 |}.

(** A hook that publishes once and throws an issue caused by another. *)
Definition failing : Generator :=
  {| publishes :=
       [{| call_message := measurement_x5; call_origin := ∅;
           call_level := 0 |}];
     exit :=
       hook_throws
         (ThrownIssue
            (mkIssue (OtherIssue "outer")
               (Some (mkIssue (OtherIssue "inner") None)))) |}.

End Sample.

(** * Properties *)

(** ** The container and the flattening *)

Section ContainerProperties.
Import OpMonContainer.

Implicit Types (m : Message) (e entry : OpMonEntry) (f : FieldDescriptor)
  (c : container).

Lemma add_field_skips m entry f :
  ~ kind_mapped f -> add_field m entry f = entry.
Proof.
  unfold kind_mapped, add_field. intros Hnot.
  destruct (is_repeated f); [reflexivity|].
  destruct (cpp_type f); try reflexivity.
  exfalso. apply Hnot. split; reflexivity.
Qed.

Lemma add_field_stores m entry f :
  kind_mapped f ->
  add_field m entry f
  = set_data (<[name f := int4_value (GetInt32 m f)]> (data entry)) entry.
Proof.
  unfold add_field. intros [-> ->]. reflexivity.
Qed.

Lemma add_field_key m entry f k v :
  data (add_field m entry f) !! k = Some v ->
  data entry !! k = Some v \/ (name f = k /\ kind_mapped f).
Proof.
  unfold add_field, kind_mapped.
  destruct (is_repeated f); [now left|].
  destruct (cpp_type f); simpl; try (now left).
  destruct (decide (name f = k)) as [Heq|Hne].
  - intros _. right. auto.
  - rewrite lookup_insert_ne by exact Hne. now left.
Qed.

Lemma fold_add_field_key m fields : forall entry k v,
  data (fold_left (add_field m) fields entry) !! k = Some v ->
  data entry !! k = Some v
  \/ exists f, f ∈ fields /\ name f = k /\ kind_mapped f.
Proof.
  induction fields as [|f fields IH]; simpl; intros entry k v Hk.
  - now left.
  - destruct (IH _ _ _ Hk) as [Hin|(g & Hg & Hname & Hkind)].
    + destruct (add_field_key _ _ _ _ _ Hin) as [Hold|[Hname Hkind]].
      * now left.
      * right. exists f. split; [apply list_elem_of_here|auto].
    + right. exists g. split; [now apply list_elem_of_further|auto].
Qed.

Lemma add_field_keeps_nonempty m entry f :
  data entry <> ∅ -> data (add_field m entry f) <> ∅.
Proof.
  unfold add_field. intros Hne.
  destruct (is_repeated f); [exact Hne|].
  destruct (cpp_type f); simpl; try exact Hne.
  apply insert_non_empty.
Qed.

Lemma fold_add_field_skips m fields : forall entry,
  Forall (fun f => ~ kind_mapped f) fields ->
  fold_left (add_field m) fields entry = entry.
Proof.
  induction fields as [|f fields IH]; simpl; intros entry Hall.
  - reflexivity.
  - inversion Hall as [|? ? Hf Hrest]; subst.
    rewrite add_field_skips by exact Hf. now apply IH.
Qed.

Lemma build_entry_key timestamp m id k v :
  data (build_entry timestamp m id) !! k = Some v ->
  exists f, f ∈ GetDescriptor m /\ name f = k /\ kind_mapped f.
Proof.
  unfold build_entry. intros Hk.
  destruct (fold_add_field_key _ _ _ _ _ Hk) as [Hempty|Hf].
  - simpl in Hempty. rewrite lookup_empty in Hempty. discriminate.
  - exact Hf.
Qed.

Lemma add_entries timestamp m id c :
  entries (add timestamp m id c) = entries c
  \/ (entries (add timestamp m id c)
      = entries c ++ [build_entry timestamp m id]
      /\ data (build_entry timestamp m id) <> ∅).
Proof.
  unfold add, entries.
  destruct (decide (0 < size (data (build_entry timestamp m id)))%nat)
    as [Hpos|Hzero]; simpl.
  - right. split; [reflexivity|].
    intros Hempty. rewrite Hempty, map_size_empty in Hpos. lia.
  - now left.
Qed.

Lemma run_entries_nonempty calls : forall c,
  Forall (fun e => data e <> ∅) (entries c) ->
  Forall (fun e => data e <> ∅) (entries (run calls c)).
Proof.
  induction calls as [|[[timestamp m] id] calls IH]; simpl; intros c Hc.
  - exact Hc.
  - apply IH.
    destruct (add_entries timestamp m id c) as [->|[-> Hne]]; [exact Hc|].
    apply Forall_app. split; [exact Hc|]. constructor; [exact Hne|constructor].
Qed.

(** C8. A repeated field of a measurement, of whatever native kind, is
    never a key of the data of the entry that [add] builds from the
    measurement: neither of the entry as built, nor of any entry the call
    puts into the container. The names of the fields of a descriptor are
    distinct. *)
Theorem repeated_field_not_in_data timestamp m id c f :
  NoDup (name <$> GetDescriptor m) ->
  f ∈ GetDescriptor m ->
  is_repeated f = true ->
  data (build_entry timestamp m id) !! name f = None
  /\ forall e, e ∈ entries (add timestamp m id c) ->
       e ∈ entries c \/ data e !! name f = None.
Proof.
  intros Hnodup Hf Hrep.
  assert (Hnone : data (build_entry timestamp m id) !! name f = None).
  { destruct (data (build_entry timestamp m id) !! name f) as [v|] eqn:Hk;
      [|reflexivity].
    destruct (build_entry_key _ _ _ _ _ Hk) as (g & Hg & Hname & Hkind).
    assert (g = f) as ->.
    { apply list_elem_of_lookup in Hg as [i Hi].
      apply list_elem_of_lookup in Hf as [j Hj].
      assert (i = j) as ->.
      { eapply NoDup_lookup; [exact Hnodup| |].
        - rewrite list_lookup_fmap, Hi. simpl. reflexivity.
        - rewrite list_lookup_fmap, Hj. simpl. now rewrite Hname. }
      congruence. }
    destruct Hkind as [Hnot _]. congruence. }
  split; [exact Hnone|].
  intros e He.
  destruct (add_entries timestamp m id c) as [Hsame|[Happ _]].
  - left. now rewrite <- Hsame.
  - rewrite Happ in He. apply elem_of_app in He as [He|He]; [now left|].
    right. apply list_elem_of_singleton in He. now subst e.
Qed.

(** C9. A measurement with no field that is both non-repeated and of a
    mapped kind yields no entry: [add] leaves the container as it was.
    And whatever calls of [add] a container has gone through since it was
    created, every entry it holds has data. *)
Theorem unmapped_measurement_yields_no_entry calls timestamp m id :
  Forall (fun f => ~ kind_mapped f) (GetDescriptor m) ->
  let c := run calls empty in
  add timestamp m id c = c
  /\ entries (add timestamp m id c) = entries c
  /\ Forall (fun e => data e <> ∅) (entries c).
Proof.
  intros Hall c.
  assert (Hadd : add timestamp m id c = c).
  { unfold add, build_entry.
    rewrite fold_add_field_skips by exact Hall. simpl.
    rewrite map_size_empty.
    destruct (decide (0 < 0)%nat) as [Hlt|_]; [lia|reflexivity]. }
  split; [exact Hadd|]. split; [now rewrite Hadd|].
  apply run_entries_nonempty. constructor.
Qed.

End ContainerProperties.

(** ** publish *)

Section PublishProperties.
Import MonitorableObject.
Context `{Headers}.

Implicit Types (self : t) (w : World) (m : Message) (co : CustomOrigin)
  (l : OpMonLevel).

(** The three ways through [publish]. *)
Lemma publish_ignored m co l self w :
  publishable_metric l (get_opmon_level self) = false ->
  publish m co l self w
  = (set_ignored_counter (wrap metric_bits (m_ignored_counter self + 1)) self,
     report (TLOG_DEBUG TLVL_LEVEL_SUPPRESSION
               ("Metric " +:+ GetTypeName m
                +:+ " ignored because of the level"))
       (snd (now (snd (GetCurrentTime w))))).
Proof.
  intros Hlevel. unfold publish. simpl. rewrite Hlevel. reflexivity.
Qed.

Lemma publish_no_data m co l self w :
  publishable_metric l (get_opmon_level self) = true ->
  data (to_entry m co) = ∅ ->
  publish m co l self w
  = (self,
     report (ers_warning
               (mkIssue (EntryWithNoData (measurement (to_entry m co))) None))
       (snd (now (snd (GetCurrentTime w))))).
Proof.
  intros Hlevel Hdata. unfold publish. simpl. rewrite Hlevel. simpl.
  destruct (decide (data (to_entry m co) = ∅)) as [_|Hne];
    [reflexivity|contradiction].
Qed.

Lemma publish_forwarded m co l self w :
  publishable_metric l (get_opmon_level self) = true ->
  data (to_entry m co) <> ∅ ->
  let e := stamped m co self w in
  let duration :=
    duration_us (clock w (clock_reads w)) (clock w (S (clock_reads w))) in
  let w1 := hand_over (m_facility self) e (snd (now (snd (GetCurrentTime w)))) in
  publish m co l self w
  = if accepts (m_facility self) e then
      (set_cpu_us_counter
         (wrap time_bits (m_cpu_us_counter self + duration))
         (set_published_counter
            (wrap metric_bits (m_published_counter self + 1)) self),
       snd (now w1))
    else
      (set_cpu_us_counter
         (wrap time_bits (m_cpu_us_counter self + duration))
         (set_error_counter
            (wrap metric_bits (m_error_counter self + 1)) self),
       snd (now (report (ers_error (mkIssue OpMonPublishFailure None)) w1))).
Proof.
  intros Hlevel Hdata. unfold publish, stamped. simpl. rewrite Hlevel. simpl.
  destruct (decide (data (to_entry m co) = ∅)) as [Hempty|_];
    [contradiction|].
  destruct (accepts _ _); reflexivity.
Qed.

(** [publish] touches the counters only. *)
Lemma publish_frame m co l self w :
  let self' := fst (publish m co l self w) in
  m_nodes self' = m_nodes self
  /\ m_generator self' = m_generator self
  /\ m_opmon_name self' = m_opmon_name self
  /\ m_parent_id self' = m_parent_id self
  /\ m_opmon_level self' = m_opmon_level self
  /\ m_facility self' = m_facility self.
Proof.
  destruct (publishable_metric l (get_opmon_level self)) eqn:Hlevel.
  - destruct (decide (data (to_entry m co) = ∅)) as [Hempty|Hdata].
    + rewrite publish_no_data by assumption. simpl. tauto.
    + rewrite publish_forwarded by assumption.
      destruct (accepts _ _); simpl; tauto.
  - rewrite publish_ignored by assumption. simpl. tauto.
Qed.

(** C6. A call of [publish] whose level fails the publishable predicate
    adds exactly one to the ignored counter, hands nothing to the sink and
    leaves the published and the error counters as they were. *)
Theorem publish_below_level_is_ignored m co l self w :
  publishable_metric l (get_opmon_level self) = false ->
  let self' := fst (publish m co l self w) in
  let w' := snd (publish m co l self w) in
  m_ignored_counter self' = wrap metric_bits (m_ignored_counter self + 1)
  /\ sink w' = sink w
  /\ m_published_counter self' = m_published_counter self
  /\ m_error_counter self' = m_error_counter self.
Proof.
  intros Hlevel. rewrite publish_ignored by exact Hlevel. simpl. tauto.
Qed.

(** C7. A call of [publish] whose level passes but whose flattened entry
    has no data reports a warning and returns: nothing is handed to the
    sink, and the published, ignored and error counters (the whole object,
    in fact) are as before. *)
Theorem publish_without_data_is_dropped m co l self w :
  publishable_metric l (get_opmon_level self) = true ->
  data (to_entry m co) = ∅ ->
  let self' := fst (publish m co l self w) in
  let w' := snd (publish m co l self w) in
  diagnostics w'
  = diagnostics w
    ++ [ers_warning
          (mkIssue (EntryWithNoData (measurement (to_entry m co))) None)]
  /\ sink w' = sink w
  /\ self' = self
  /\ m_published_counter self' = m_published_counter self
  /\ m_ignored_counter self' = m_ignored_counter self
  /\ m_error_counter self' = m_error_counter self.
Proof.
  intros Hlevel Hdata. rewrite publish_no_data by assumption. simpl. tauto.
Qed.

(** C10. [publish] leaves the running counter [m_cpu_us_counter] as it
    was when it returns early, because of the level or because the entry
    has no data; when it gets to the facility it adds the duration between
    its two readings of the clock, whether the facility takes the entry or
    throws. *)
Theorem publish_cpu_time m co l self w :
  let self' := fst (publish m co l self w) in
  let duration :=
    duration_us (clock w (clock_reads w)) (clock w (S (clock_reads w))) in
  m_cpu_us_counter self'
  = if publishable_metric l (get_opmon_level self)
       && negb (bool_decide (data (to_entry m co) = ∅))
    then wrap time_bits (m_cpu_us_counter self + duration)
    else m_cpu_us_counter self.
Proof.
  destruct (publishable_metric l (get_opmon_level self)) eqn:Hlevel; simpl.
  - destruct (decide (data (to_entry m co) = ∅)) as [Hempty|Hdata].
    + rewrite publish_no_data by assumption.
      rewrite bool_decide_eq_true_2 by exact Hempty. reflexivity.
    + rewrite publish_forwarded by assumption.
      rewrite bool_decide_eq_false_2 by exact Hdata. simpl.
      destruct (accepts _ _); reflexivity.
  - rewrite publish_ignored by exact Hlevel. reflexivity.
Qed.

End PublishProperties.

(** ** register_node *)

Section RegisterProperties.
Import MonitorableObject.
Context `{Headers}.

Implicit Types (self p : t) (w : World) (name : ElementId)
  (nodes : registry).

Lemma compare_same (s : string) : String.compare s s = Eq.
Proof.
  pose proof (String.compare_antisym s s) as Hanti.
  destruct (String.compare s s); simpl in Hanti; congruence.
Qed.

Lemma find_assign_same name wp nodes :
  find name (assign name wp nodes) = Some wp.
Proof.
  induction nodes as [|[k v] rest IH]; simpl.
  - now rewrite compare_same.
  - destruct (String.compare name k) eqn:Hcmp; simpl.
    + now rewrite compare_same.
    + now rewrite compare_same.
    + now rewrite Hcmp.
Qed.

(** Overwriting the entry of a name that is present leaves the other
    names, and the size, as they were. *)
Lemma find_assign_other name wp nodes other :
  is_Some (find name nodes) ->
  other <> name ->
  find other (assign name wp nodes) = find other nodes.
Proof.
  induction nodes as [|[k v] rest IH]; simpl; intros Hsome Hne.
  - destruct Hsome as [? Hnone]. discriminate.
  - destruct (String.compare name k) eqn:Hcmp; simpl.
    + apply String.compare_eq_iff in Hcmp. subst k.
      destruct (String.compare other name) eqn:Hother; try reflexivity.
      apply String.compare_eq_iff in Hother. contradiction.
    + destruct Hsome as [? Hnone]. discriminate.
    + destruct (String.compare other k); auto.
Qed.

Lemma length_assign_present name wp nodes :
  is_Some (find name nodes) ->
  length (assign name wp nodes) = length nodes.
Proof.
  induction nodes as [|[k v] rest IH]; simpl; intros Hsome.
  - destruct Hsome as [? Hnone]. discriminate.
  - destruct (String.compare name k) eqn:Hcmp; simpl.
    + reflexivity.
    + destruct Hsome as [? Hnone]. discriminate.
    + now rewrite IH.
Qed.

(** C3. When the registry of a node has an entry for the name: if the
    entry is live, [register_node] throws [NonUniqueNodeName] and neither
    the node (its registry in particular) nor the child has changed, and
    nothing is reported; if the entry is expired, [register_node] returns,
    the entry of the name now resolves to the child, which has taken the
    name and the properties of the node, the other entries are as before,
    and a warning has been reported before the trace of the
    registration. *)
Theorem register_node_on_taken_name name p self w wp :
  find name (m_nodes self) = Some wp ->
  let duplicate :=
    mkIssue (NonUniqueNodeName name (to_string (get_opmon_id self))) None in
  if expired wp then
    exists self' w',
      let p' := inherit_parent_properties self (set_opmon_name name p) in
      register_node name p self w = (Normal tt, self', p', w')
      /\ find name (m_nodes self') = Some (Some p')
      /\ (forall other, other <> name ->
            find other (m_nodes self') = find other (m_nodes self))
      /\ length (m_nodes self') = length (m_nodes self)
      /\ diagnostics w'
         = diagnostics w
           ++ [ers_warning duplicate;
               TLOG ("Node " +:+ name +:+ " registered to "
                     +:+ to_string (get_opmon_id self))]
      /\ sink w' = sink w
  else
    register_node name p self w
    = (Raised (ThrownIssue duplicate), self, p, w).
Proof.
  intros Hfind duplicate. unfold register_node. rewrite Hfind.
  destruct wp as [holder|]; simpl; [reflexivity|].
  eexists _, _. split; [reflexivity|]. simpl.
  split; [apply find_assign_same|].
  split; [intros other Hne; apply find_assign_other;
          [rewrite Hfind; eauto|exact Hne]|].
  split; [apply length_assign_present; rewrite Hfind; eauto|].
  split; [|reflexivity].
  rewrite <- app_assoc. reflexivity.
Qed.

End RegisterProperties.

(** ** collect *)

Section WrapArithmetic.

Lemma wrap_wrap bits z : wrap bits (wrap bits z) = wrap bits z.
Proof. unfold wrap. apply Zmod_mod. Qed.

Lemma wrap_add_l bits a b : wrap bits (wrap bits a + b) = wrap bits (a + b).
Proof. unfold wrap. apply Zplus_mod_idemp_l. Qed.

Lemma wrap_add_r bits a b : wrap bits (a + wrap bits b) = wrap bits (a + b).
Proof. unfold wrap. apply Zplus_mod_idemp_r. Qed.

Lemma wrap_small bits z : 0 <= z < 2 ^ Z.pos bits -> wrap bits z = z.
Proof. unfold wrap. apply Z.mod_small. Qed.

Lemma wrap_0 bits : wrap bits 0 = 0.
Proof. unfold wrap. apply Zmod_0_l. Qed.

Lemma wrap_1 bits : wrap bits 1 = 1.
Proof.
  apply wrap_small. split; [lia|].
  change 1 with (2 ^ 0) at 1. apply Z.pow_lt_mono_r; lia.
Qed.

End WrapArithmetic.

Section CollectProperties.
Import MonitorableObject.
Context `{Headers}.

Implicit Types (self : t) (w : World) (nodes : registry)
  (info : MonitoringTreeInfo).

(** Induction on a tree: a property holds of a node as soon as it holds
    of the children its registry resolves to. *)
Lemma tree_ind (P : t -> Prop) :
  (forall self,
      Forall (fun e => forall c, snd e = Some c -> P c) (m_nodes self) ->
      P self) ->
  forall self, P self.
Proof.
  intros step. fix IH 1. intros self. apply step.
  destruct self as [? ? ? ? ? ? ? ? ? nodes]. simpl.
  induction nodes as [|[key [c|]] rest IHrest]; constructor;
    try exact IHrest; simpl; intros c' Hc'.
  - injection Hc' as <-. apply IH.
  - discriminate.
Qed.

Lemma counters_only_refl self : counters_only self self.
Proof. unfold counters_only. tauto. Qed.

Lemma counters_only_trans self1 self2 self3 :
  counters_only self1 self2 -> counters_only self2 self3 ->
  counters_only self1 self3.
Proof.
  unfold counters_only.
  intros (-> & -> & -> & -> & -> & ->) (-> & -> & -> & -> & -> & ->). tauto.
Qed.

Lemma publish_counters_only m co l self w :
  counters_only self (fst (publish m co l self w)).
Proof. apply publish_frame. Qed.

Lemma publish_clock m co l self w :
  clock (snd (publish m co l self w)) = clock w.
Proof.
  destruct (publishable_metric l (get_opmon_level self)) eqn:Hlevel.
  - destruct (decide (data (to_entry m co) = ∅)) as [Hempty|Hdata].
    + rewrite publish_no_data by assumption. reflexivity.
    + rewrite publish_forwarded by assumption.
      destruct (accepts _ _); reflexivity.
  - rewrite publish_ignored by assumption. reflexivity.
Qed.

(** *** The hook and the [try] block *)

Lemma run_publishes_cons c calls self w :
  run_publishes (c :: calls) (self, w)
  = run_publishes calls
      (publish (call_message c) (call_origin c) (call_level c) self w).
Proof. reflexivity. Qed.

Lemma run_publishes_frame calls : forall s,
  counters_only (fst s) (fst (run_publishes calls s))
  /\ clock (snd (run_publishes calls s)) = clock (snd s).
Proof.
  induction calls as [|c calls IH]; intros [self w].
  - split; [apply counters_only_refl|reflexivity].
  - rewrite run_publishes_cons.
    destruct (IH (publish (call_message c) (call_origin c) (call_level c)
                    self w)) as [Hcount Hclock].
    split.
    + eapply counters_only_trans; [apply publish_counters_only|exact Hcount].
    + rewrite Hclock. apply publish_clock.
Qed.

Lemma generate_opmon_data_eq s :
  generate_opmon_data s
  = (match exit (m_generator (fst s)) with
     | hook_returns => Normal tt
     | hook_throws thrown => Raised thrown
     end,
     run_publishes (publishes (m_generator (fst s))) s).
Proof.
  unfold generate_opmon_data.
  destruct (exit (m_generator (fst s))); reflexivity.
Qed.

Lemma increment_twice (a : Z) (n : nat) bits :
  wrap bits (wrap bits (a + 1) + Z.of_nat n) = wrap bits (a + Z.of_nat (S n)).
Proof. rewrite wrap_add_l. f_equal. lia. Qed.

Lemma count_causes_spec : forall (i : Issue) self,
  count_causes i self
  = set_error_counter
      (wrap metric_bits (m_error_counter self + Z.of_nat (chain_length i)))
      self.
Proof.
  fix IH 1. intros [cls [c|]] self; simpl.
  - rewrite IH. unfold increment_error_counter.
    destruct self; unfold set_error_counter; simpl.
    f_equal. rewrite wrap_add_l. f_equal. lia.
  - unfold increment_error_counter. f_equal.
Qed.

(** The [try] block always ends normally: a hook that returns leaves what
    its [publish] calls made; a hook that throws has, on top of that, the
    error counter incremented once per link and one error reported. *)
Lemma try_generate_opmon_data_eq s :
  let s0 := run_publishes (publishes (m_generator (fst s))) s in
  try_generate_opmon_data s
  = (Normal tt,
     match exit (m_generator (fst s)) with
     | hook_returns => s0
     | hook_throws thrown =>
         (set_error_counter
            (wrap metric_bits
               (m_error_counter (fst s0) + Z.of_nat (links thrown)))
            (fst s0),
          report
            (ers_error
               (summary (to_string (get_opmon_id (fst s0))) thrown))
            (snd s0))
     end).
Proof.
  unfold try_generate_opmon_data, try_catch.
  rewrite generate_opmon_data_eq.
  destruct (exit (m_generator (fst s))) as [|thrown]; [reflexivity|].
  destruct (run_publishes (publishes (m_generator (fst s))) s)
    as [self0 w0].
  destruct thrown as [[cls [c|]]|what|]; simpl; try reflexivity.
  rewrite count_causes_spec. unfold increment_error_counter.
  destruct self0; unfold set_error_counter, summary; simpl.
  rewrite !increment_twice. reflexivity.
Qed.

Lemma try_generate_opmon_data_frame self w :
  exists self1 w1,
    try_generate_opmon_data (self, w) = (Normal tt, (self1, w1))
    /\ counters_only self self1
    /\ clock w1 = clock w.
Proof.
  rewrite try_generate_opmon_data_eq. simpl.
  destruct (run_publishes_frame (publishes (m_generator self)) (self, w))
    as [Hcount Hclock].
  destruct (run_publishes (publishes (m_generator self)) (self, w))
    as [self0 w0]. simpl in *.
  destruct (exit (m_generator self)) as [|thrown].
  - eexists _, _. split; [reflexivity|]. auto.
  - eexists _, _. split; [reflexivity|]. split; [|exact Hclock].
    destruct self0; exact Hcount.
Qed.

(** *** The part of [collect] before the walk *)

Lemma exchange_counters_eq info self :
  exchange_counters info self
  = ({| n_registered_nodes := n_registered_nodes info;
        n_publishing_nodes :=
          if decide (0 < wrap metric_bits (m_published_counter self))
          then wrap node_count_bits 1
          else n_publishing_nodes info;
        n_invalid_links := n_invalid_links info;
        n_published_measurements :=
          wrap metric_bits (m_published_counter self);
        n_ignored_measurements := wrap metric_bits (m_ignored_counter self);
        n_errors := wrap metric_bits (m_error_counter self);
        cpu_elapsed_time_us := wrap time_bits (m_cpu_us_counter self);
        clockwall_elapsed_time_us := clockwall_elapsed_time_us info |},
     reset_counters self).
Proof.
  unfold exchange_counters. simpl.
  destruct (decide (0 < wrap metric_bits (m_published_counter self)));
    reflexivity.
Qed.

Lemma reset_counters_only self self1 :
  counters_only self self1 -> reset_counters self1 = reset_counters self.
Proof.
  unfold counters_only. destruct self, self1; simpl.
  intros (-> & -> & -> & -> & -> & ->). reflexivity.
Qed.

Lemma collect_own_eq self w self1 w1 :
  try_generate_opmon_data (self, snd (collect_enter self w))
  = (Normal tt, (self1, w1)) ->
  collect_own self w
  = (Normal (clock w (clock_reads w), own_info self1),
     reset_counters self1, w1).
Proof.
  unfold collect_own, own_info, collect_enter, now. cbn [fst snd].
  intros ->. rewrite exchange_counters_eq. reflexivity.
Qed.

Lemma own_info_in_range self1 : in_range (own_info self1).
Proof.
  unfold own_info. rewrite exchange_counters_eq.
  unfold in_range; simpl. rewrite !wrap_wrap, !wrap_0.
  destruct (decide (0 < wrap metric_bits (m_published_counter self1)));
    rewrite ?wrap_wrap, ?wrap_0; tauto.
Qed.

(** *** The walk over the registry *)

Lemma collect_unfold self w :
  collect self w
  = match collect_own self w with
    | (Raised thrown, self1, w) => (Raised thrown, self1, w)
    | (Normal (start_time, info), self1, w) =>
        match collect_children collect (m_nodes self) info 0 w with
        | (Raised thrown, nodes, w) =>
            (Raised thrown, set_nodes nodes self1, w)
        | (Normal (info, n_invalid_links_local), nodes, w) =>
            let info :=
              set_n_invalid_links
                (n_invalid_links info + n_invalid_links_local) info in
            let '(stop_time, w) := now w in
            let duration := duration_us start_time stop_time in
            let info := set_clockwall_elapsed_time_us duration info in
            (Normal info, set_nodes nodes self1, w)
        end
    end.
Proof. destruct self; reflexivity. Qed.

Lemma collected_unfold self :
  collected self
  = set_nodes (prune collected (m_nodes self)) (reset_counters self).
Proof. destruct self; reflexivity. Qed.

Lemma stale_here_live key c nodes :
  stale_here ((key, Some c) :: nodes) = stale_here nodes.
Proof. reflexivity. Qed.

Lemma stale_here_expired key nodes :
  stale_here ((key, None) :: nodes) = 1 + stale_here nodes.
Proof. unfold stale_here. simpl length. lia. Qed.

(** The walk, when every child that resolves returns from its own
    [collect]: the results of the children are merged one after the other,
    the expired entries are counted, and the registry is left pruned. *)
Lemma collect_children_spec nodes :
  Forall (fun e => forall c, snd e = Some c -> forall w,
            exists info w',
              collect c w = (Normal info, collected c, w')
              /\ clock w' = clock w) nodes ->
  forall info n w,
    wrap unsigned_int_bits n = n ->
    exists w',
      collect_children collect nodes info n w
      = (Normal (fold_left merge_child_info (child_infos nodes w) info,
                 wrap unsigned_int_bits (n + stale_here nodes)),
         prune collected nodes, w')
      /\ clock w' = clock w.
Proof.
  induction 1 as [|[key [c|]] rest Hc Hrest IH]; intros info n w Hn.
  - exists w. cbn [collect_children child_infos fold_left prune].
    change (stale_here []) with 0. rewrite Z.add_0_r, Hn. auto.
  - destruct (Hc c eq_refl w) as (ci & w1 & Hcol & Hclk).
    destruct (IH (merge_child_info info ci) n w1 Hn) as (w' & Hloop & Hclk').
    exists w'. cbn [collect_children child_infos lock expired prune].
    rewrite Hcol. cbn [expired fold_left]. rewrite Hloop.
    rewrite stale_here_live. split; [reflexivity|congruence].
  - destruct (IH info (wrap unsigned_int_bits (n + 1)) w (wrap_wrap _ _))
      as (w' & Hloop & Hclk').
    exists w'. cbn [collect_children child_infos lock expired prune].
    rewrite Hloop, stale_here_expired, wrap_add_l, Z.add_assoc. auto.
Qed.

Lemma now_eq w :
  now w
  = (clock w (clock_reads w),
     {| clock := clock w; clock_reads := S (clock_reads w);
        current_time := current_time w;
        current_time_reads := current_time_reads w;
        sink := sink w; diagnostics := diagnostics w |}).
Proof. reflexivity. Qed.

(** [collect] returns, whatever the tree and the world: no exception
    leaves it, the object is left collected, and the clock is the same. *)
Lemma collect_returns : forall self w,
  exists info w',
    collect self w = (Normal info, collected self, w')
    /\ clock w' = clock w.
Proof.
  induction self as [self Hkids] using tree_ind. intros w.
  destruct (try_generate_opmon_data_frame self (snd (collect_enter self w)))
    as (self1 & w1 & Htry & Hcount & Hclk1).
  destruct (collect_children_spec _ Hkids (own_info self1) 0 w1 (wrap_0 _))
    as (w2 & Hloop & Hclk2).
  rewrite collect_unfold, (collect_own_eq _ _ _ _ Htry), Hloop, now_eq.
  rewrite (reset_counters_only _ _ Hcount), <- collected_unfold.
  eexists _, _. split; [reflexivity|]. simpl in *. congruence.
Qed.

(** *** Merging the results of the children *)

Lemma merge_child_info_in_range info child_info :
  in_range info -> in_range (merge_child_info info child_info).
Proof.
  unfold in_range, merge_child_info. simpl.
  intros (_ & _ & _ & _ & _ & _ & _ & Hwall).
  rewrite !wrap_wrap. tauto.
Qed.

(** Seven fields of the running result are the sums of what was there and
    of the children's; the wall-clock field is not merged. *)
Lemma merged_fields infos : forall info,
  in_range info ->
  let merged := fold_left merge_child_info infos info in
  n_registered_nodes merged
  = wrap node_count_bits
      (n_registered_nodes info + total n_registered_nodes infos)
  /\ n_publishing_nodes merged
     = wrap node_count_bits
         (n_publishing_nodes info + total n_publishing_nodes infos)
  /\ n_invalid_links merged
     = wrap node_count_bits
         (n_invalid_links info + total n_invalid_links infos)
  /\ n_published_measurements merged
     = wrap metric_bits
         (n_published_measurements info
          + total n_published_measurements infos)
  /\ n_ignored_measurements merged
     = wrap metric_bits
         (n_ignored_measurements info + total n_ignored_measurements infos)
  /\ n_errors merged
     = wrap metric_bits (n_errors info + total n_errors infos)
  /\ cpu_elapsed_time_us merged
     = wrap time_bits
         (cpu_elapsed_time_us info + total cpu_elapsed_time_us infos)
  /\ clockwall_elapsed_time_us merged = clockwall_elapsed_time_us info
  /\ in_range merged.
Proof.
  induction infos as [|child_info infos IH]; intros info Hrange;
    cbn [fold_left total fold_right].
  - rewrite !Z.add_0_r. pose proof Hrange as Hfields.
    destruct Hfields as (-> & -> & -> & -> & -> & -> & -> & _). tauto.
  - destruct (IH _ (merge_child_info_in_range info child_info Hrange))
      as (-> & -> & -> & -> & -> & -> & -> & -> & Hmerged).
    unfold merge_child_info at 1 2 3 4 5 6 7 8. simpl.
    rewrite !wrap_add_l, !Z.add_assoc. tauto.
Qed.

(** *** [collect] in one equation *)

Lemma collect_result self w self1 w1 :
  try_generate_opmon_data (self, snd (collect_enter self w))
  = (Normal tt, (self1, w1)) ->
  let merged :=
    fold_left merge_child_info (child_infos (m_nodes self) w1)
      (own_info self1) in
  exists w2,
    collect self w
    = (Normal
         (set_clockwall_elapsed_time_us
            (duration_us (clock w (clock_reads w))
               (clock w (clock_reads w2)))
            (set_n_invalid_links
               (n_invalid_links merged
                + wrap unsigned_int_bits (stale_here (m_nodes self)))
               merged)),
       collected self, snd (now w2))
    /\ clock w2 = clock w.
Proof.
  intros Htry merged.
  destruct (try_generate_opmon_data_frame self (snd (collect_enter self w)))
    as (self1' & w1' & Htry' & Hcount & Hclk1).
  rewrite Htry in Htry'. injection Htry' as <- <-.
  assert (Hkids :
    Forall (fun e => forall c, snd e = Some c -> forall w,
              exists info w',
                collect c w = (Normal info, collected c, w')
                /\ clock w' = clock w) (m_nodes self)).
  { apply Forall_forall. intros e _ c _. apply collect_returns. }
  destruct (collect_children_spec _ Hkids (own_info self1) 0 w1 (wrap_0 _))
    as (w2 & Hloop & Hclk2).
  exists w2. simpl in Hclk1.
  rewrite collect_unfold, (collect_own_eq _ _ _ _ Htry), Hloop, now_eq.
  rewrite (reset_counters_only _ _ Hcount), <- collected_unfold.
  rewrite Z.add_0_l. split; [|congruence].
  replace (clock w2) with (clock w) by congruence. reflexivity.
Qed.

(** *** Closed forms for the counts of nodes and of links *)

Lemma live_nodes_unfold self :
  live_nodes self = 1 + over_live live_nodes (m_nodes self).
Proof. destruct self; reflexivity. Qed.

Lemma registry_links_unfold self :
  registry_links self
  = Z.of_nat (length (m_nodes self)) + over_live registry_links (m_nodes self).
Proof. destruct self; reflexivity. Qed.

Lemma stale_links_unfold self :
  stale_links self
  = stale_here (m_nodes self) + over_live stale_links (m_nodes self).
Proof. destruct self; reflexivity. Qed.

Lemma erased_links_unfold self :
  erased_links self
  = wrap unsigned_int_bits (stale_here (m_nodes self))
    + over_live erased_links (m_nodes self).
Proof. destruct self; reflexivity. Qed.

(** Where a field of the result of every child is a measure of the child,
    the sum of the field over the children is the sum of the measure. *)
Lemma total_over_live (field : MonitoringTreeInfo -> Z) (measure : t -> Z)
    bits nodes :
  Forall (fun e => forall c, snd e = Some c ->
            forall w info self' w',
              collect c w = (Normal info, self', w') ->
              field info = wrap bits (measure c)) nodes ->
  forall w x,
    wrap bits (x + total field (child_infos nodes w))
    = wrap bits (x + over_live measure nodes).
Proof.
  induction 1 as [|[key [c|]] rest Hc Hrest IH]; intros w x;
    cbn [child_infos over_live].
  - reflexivity.
  - destruct (collect_returns c w) as (ci & w1 & Hcol & _).
    rewrite Hcol. cbn [total fold_right].
    fold (total field (child_infos rest w1)).
    rewrite (Hc c eq_refl _ _ _ _ Hcol), !Z.add_assoc, IH.
    rewrite (Z.add_shuffle0 x), wrap_add_r, (Z.add_shuffle0 x).
    reflexivity.
  - apply IH.
Qed.

Lemma collect_counts_links : forall self w info self' w',
  collect self w = (Normal info, self', w') ->
  n_registered_nodes info = wrap node_count_bits (registry_links self)
  /\ n_invalid_links info = wrap node_count_bits (erased_links self).
Proof.
  induction self as [self Hkids] using tree_ind.
  intros w info self' w' Hcollect.
  destruct (try_generate_opmon_data_frame self (snd (collect_enter self w)))
    as (self1 & w1 & Htry & (Hnodes & _) & _).
  destruct (collect_result _ _ _ _ Htry) as (w2 & Hresult & _).
  rewrite Hresult in Hcollect. injection Hcollect as <- _ _.
  destruct (merged_fields (child_infos (m_nodes self) w1) _
              (own_info_in_range self1))
    as (Hregistered & _ & Hinvalid & _).
  cbn [n_registered_nodes n_invalid_links set_clockwall_elapsed_time_us
       set_n_invalid_links].
  rewrite Hregistered, Hinvalid, registry_links_unfold, erased_links_unfold.
  unfold own_info. rewrite exchange_counters_eq. simpl.
  rewrite Hnodes, wrap_0, wrap_add_l, wrap_add_l. split.
  - apply total_over_live.
    eapply Forall_impl; [exact Hkids|].
    intros e He c Hc w0 i s0 w0' Hcol. now apply (He c Hc w0 i s0 w0').
  - rewrite Z.add_0_l, Z.add_comm. apply total_over_live.
    eapply Forall_impl; [exact Hkids|].
    intros e He c Hc w0 i s0 w0' Hcol. now apply (He c Hc w0 i s0 w0').
Qed.

Lemma over_live_nonneg (measure : t -> Z) nodes :
  Forall (fun e => forall c, snd e = Some c -> 0 <= measure c) nodes ->
  0 <= over_live measure nodes.
Proof.
  induction 1 as [|[key [c|]] rest Hc Hrest IH]; simpl; try lia.
  specialize (Hc c eq_refl). lia.
Qed.

Lemma stale_here_nonneg nodes : 0 <= stale_here nodes.
Proof. unfold stale_here. lia. Qed.

Lemma stale_here_le_length nodes :
  stale_here nodes <= Z.of_nat (length nodes).
Proof.
  unfold stale_here. apply inj_le. apply List.filter_length_le.
Qed.

(** The registry entries of a tree are its live nodes, the root apart,
    and its stale links. *)
Lemma registry_links_split : forall self,
  registry_links self = live_nodes self - 1 + stale_links self.
Proof.
  induction self as [self Hkids] using tree_ind.
  rewrite registry_links_unfold, live_nodes_unfold, stale_links_unfold.
  revert Hkids. generalize (m_nodes self) as nodes.
  induction nodes as [|[key [c|]] rest IH]; intros Hkids;
    inversion Hkids as [|? ? Hc Hrest]; subst.
  - reflexivity.
  - specialize (IH Hrest). specialize (Hc c eq_refl).
    rewrite stale_here_live. cbn [over_live length].
    rewrite Nat2Z.inj_succ. lia.
  - specialize (IH Hrest).
    rewrite stale_here_expired. cbn [over_live length].
    rewrite Nat2Z.inj_succ. lia.
Qed.

Lemma over_live_le (f g : t -> Z) nodes :
  Forall (fun e => forall c, snd e = Some c -> f c <= g c) nodes ->
  over_live f nodes <= over_live g nodes.
Proof.
  induction 1 as [|[key [c|]] rest Hc Hrest IH]; simpl; try lia.
  specialize (Hc c eq_refl). lia.
Qed.

(** The count the code keeps never exceeds the number of stale links. *)
Lemma erased_links_bounds : forall self,
  0 <= erased_links self <= stale_links self.
Proof.
  induction self as [self Hkids] using tree_ind.
  rewrite erased_links_unfold, stale_links_unfold.
  assert (Hhere : 0 <= wrap unsigned_int_bits (stale_here (m_nodes self))
                  <= stale_here (m_nodes self)).
  { unfold wrap. pose proof (stale_here_nonneg (m_nodes self)).
    split; [apply Z.mod_pos_bound; lia|apply Z.mod_le; lia]. }
  assert (0 <= over_live erased_links (m_nodes self)).
  { apply over_live_nonneg. eapply Forall_impl; [exact Hkids|].
    intros e He c Hc. apply (He c Hc). }
  assert (over_live erased_links (m_nodes self)
          <= over_live stale_links (m_nodes self)).
  { apply over_live_le. eapply Forall_impl; [exact Hkids|].
    intros e He c Hc. apply (He c Hc). }
  lia.
Qed.

Lemma countable_registries_unfold self :
  countable_registries self
  <-> Z.of_nat (length (m_nodes self)) < 2 ^ Z.pos unsigned_int_bits
      /\ all_live countable_registries (m_nodes self).
Proof. destruct self; reflexivity. Qed.

Lemma erased_links_countable : forall self,
  countable_registries self -> erased_links self = stale_links self.
Proof.
  induction self as [self Hkids] using tree_ind.
  rewrite countable_registries_unfold, erased_links_unfold,
    stale_links_unfold.
  intros [Hsize Hall].
  rewrite wrap_small
    by (pose proof (stale_here_nonneg (m_nodes self));
        pose proof (stale_here_le_length (m_nodes self)); lia).
  f_equal. clear Hsize. revert Hkids Hall.
  generalize (m_nodes self) as nodes.
  induction nodes as [|[key [c|]] rest IH]; intros Hkids Hall;
    inversion Hkids as [|? ? Hc Hrest]; subst; cbn [over_live all_live] in *.
  - reflexivity.
  - destruct Hall as [Hchild Hall].
    rewrite (Hc c eq_refl Hchild), (IH Hrest Hall). reflexivity.
  - apply IH; assumption.
Qed.

(** *** The registry after [collect] *)

Lemma prune_keys (f : t -> t) nodes :
  map fst (prune f nodes)
  = map fst (List.filter (fun e => negb (expired (snd e))) nodes).
Proof.
  induction nodes as [|[key [c|]] rest IH]; simpl; congruence.
Qed.

Lemma prune_live (f : t -> t) nodes :
  Forall (fun e => expired (snd e) = false) (prune f nodes).
Proof.
  induction nodes as [|[key [c|]] rest IH]; simpl; auto.
Qed.

Lemma prune_length (f : t -> t) nodes :
  Z.of_nat (length nodes)
  = Z.of_nat (length (prune f nodes)) + stale_here nodes.
Proof.
  induction nodes as [|[key [c|]] rest IH].
  - reflexivity.
  - rewrite stale_here_live. cbn [prune length].
    rewrite !Nat2Z.inj_succ. lia.
  - rewrite stale_here_expired. cbn [prune length].
    rewrite !Nat2Z.inj_succ. lia.
Qed.

Lemma m_nodes_collected self :
  m_nodes (collected self) = prune collected (m_nodes self).
Proof. destruct self; reflexivity. Qed.

(** *** The statements about [collect] *)

(** C1, as the code has it. [collect] on the root of a tree returns, and
    [n_registered_nodes] is the number of registry entries, live or stale
    at the time of the walk, held by the root and by the live nodes
    reachable from it: the live nodes other than the root plus the stale
    links. The contribution of a node starts at the size of its registry,
    to which the results of its live children are added. *)
Theorem collect_counts_registry_entries self w :
  exists self1 w1 info w',
    try_generate_opmon_data (self, snd (collect_enter self w))
    = (Normal tt, (self1, w1))
    /\ n_registered_nodes (own_info self1)
       = wrap node_count_bits (Z.of_nat (length (m_nodes self)))
    /\ collect self w = (Normal info, collected self, w')
    /\ n_registered_nodes info = wrap node_count_bits (registry_links self)
    /\ registry_links self = live_nodes self - 1 + stale_links self.
Proof.
  destruct (try_generate_opmon_data_frame self (snd (collect_enter self w)))
    as (self1 & w1 & Htry & (Hnodes & _) & _).
  destruct (collect_returns self w) as (info & w' & Hcollect & _).
  exists self1, w1, info, w'.
  split; [exact Htry|]. split.
  { unfold own_info. rewrite exchange_counters_eq. simpl. now rewrite Hnodes. }
  split; [exact Hcollect|]. split.
  - eapply collect_counts_links. exact Hcollect.
  - apply registry_links_split.
Qed.

(** C2, as the code has it. The result of every child that resolves is
    merged into the result of the parent by adding seven of the eight
    fields; to the invalid links the parent adds the expired entries of
    its own registry. The eighth field, [clockwall_elapsed_time_us], is
    left alone by the merge and set at the end to the duration of this
    very call, from its first reading of the clock to its last. *)
Theorem collect_merges_children self w :
  exists self1 w1 info w',
    try_generate_opmon_data (self, snd (collect_enter self w))
    = (Normal tt, (self1, w1))
    /\ collect self w = (Normal info, collected self, w')
    /\ let own := own_info self1 in
       let children := child_infos (m_nodes self) w1 in
       n_registered_nodes info
       = wrap node_count_bits
           (n_registered_nodes own + total n_registered_nodes children)
       /\ n_publishing_nodes info
          = wrap node_count_bits
              (n_publishing_nodes own + total n_publishing_nodes children)
       /\ n_invalid_links info
          = wrap node_count_bits
              (wrap unsigned_int_bits (stale_here (m_nodes self))
               + total n_invalid_links children)
       /\ n_published_measurements info
          = wrap metric_bits
              (n_published_measurements own
               + total n_published_measurements children)
       /\ n_ignored_measurements info
          = wrap metric_bits
              (n_ignored_measurements own
               + total n_ignored_measurements children)
       /\ n_errors info
          = wrap metric_bits (n_errors own + total n_errors children)
       /\ cpu_elapsed_time_us info
          = wrap time_bits
              (cpu_elapsed_time_us own + total cpu_elapsed_time_us children)
       /\ clockwall_elapsed_time_us info
          = wrap time_bits
              (duration_us (clock w (clock_reads w))
                 (clock w (Nat.pred (clock_reads w'))))
       /\ clockwall_elapsed_time_us
            (fold_left merge_child_info children own)
          = clockwall_elapsed_time_us own.
Proof.
  destruct (try_generate_opmon_data_frame self (snd (collect_enter self w)))
    as (self1 & w1 & Htry & _ & _).
  destruct (collect_result _ _ _ _ Htry) as (w2 & Hresult & _).
  destruct (merged_fields (child_infos (m_nodes self) w1) _
              (own_info_in_range self1))
    as (Hreg & Hpub & Hinv & Hmeas & Hign & Herr & Hcpu & Hwall & _).
  eexists self1, w1, _, _.
  split; [exact Htry|]. split; [exact Hresult|].
  cbn [n_registered_nodes n_publishing_nodes n_invalid_links
       n_published_measurements n_ignored_measurements n_errors
       cpu_elapsed_time_us clockwall_elapsed_time_us
       set_clockwall_elapsed_time_us set_n_invalid_links
       now snd clock_reads Nat.pred].
  repeat split; try assumption.
  rewrite Hinv, wrap_add_l. f_equal.
  assert (Hzero : n_invalid_links (own_info self1) = 0).
  { unfold own_info. rewrite exchange_counters_eq. simpl. apply wrap_0. }
  rewrite Hzero. lia.
Qed.

(** C4. [collect] erases from the registry of a node exactly the entries
    that are expired when it walks it: the keys left are those of the
    entries that were not expired, in their order; no entry left is
    expired; the registry has shrunk by the number of expired entries.
    [n_invalid_links] counts every erased entry once, here and in the
    live nodes below. For a root with a live child that has no stale link
    below it and a child that is gone, [n_invalid_links] is 1 and the
    name of the child that is gone is no longer found. *)
Theorem collect_prunes_expired_entries self w :
  exists info self' w',
    collect self w = (Normal info, self', w')
    /\ map fst (m_nodes self')
       = map fst (List.filter (fun e => negb (expired (snd e)))
                    (m_nodes self))
    /\ Forall (fun e => expired (snd e) = false) (m_nodes self')
    /\ Z.of_nat (length (m_nodes self))
       = Z.of_nat (length (m_nodes self')) + stale_here (m_nodes self)
    /\ n_invalid_links info = wrap node_count_bits (erased_links self)
    /\ (countable_registries self ->
        n_invalid_links info = wrap node_count_bits (stale_links self))
    /\ (forall a b A,
          a <> b ->
          m_nodes self = [(a, Some A); (b, None)]
          \/ m_nodes self = [(b, None); (a, Some A)] ->
          stale_links A = 0 ->
          n_invalid_links info = 1
          /\ find b (m_nodes self') = None
          /\ m_nodes self' = [(a, Some (collected A))]).
Proof.
  destruct (collect_returns self w) as (info & w' & Hcollect & _).
  destruct (collect_counts_links _ _ _ _ _ Hcollect) as [_ Hinvalid].
  exists info, (collected self), w'.
  split; [exact Hcollect|]. rewrite m_nodes_collected.
  split; [apply prune_keys|]. split; [apply prune_live|].
  split; [apply prune_length|]. split; [exact Hinvalid|].
  split; [intros Hcountable; rewrite Hinvalid;
          now rewrite erased_links_countable|].
  intros a b A Hne Hnodes HA.
  assert (HeA : erased_links A = 0)
    by (pose proof (erased_links_bounds A); lia).
  assert (Hfind : find b [(a, Some (collected A))] = None).
  { simpl. destruct (String.compare b a) eqn:Hcmp; try reflexivity.
    apply String.compare_eq_iff in Hcmp. congruence. }
  rewrite Hinvalid, erased_links_unfold.
  destruct Hnodes as [-> | ->]; cbn [prune over_live];
    [change (stale_here [(a, Some A); (b, None)]) with 1
    |change (stale_here [(b, None); (a, Some A)]) with 1];
    rewrite HeA, !Z.add_0_r, !wrap_1; auto.
Qed.

(** C5. Whatever the generation hook throws is caught inside [collect]:
    the [try] block ends normally and so does [collect]. The error counter
    goes up by one for every link of the cause chain of an [ers::Issue],
    the issue itself included, and by one for anything else that is
    thrown; the other counters stay as the hook left them; one error is
    reported; and the errors so counted are in the result. *)
Theorem hook_errors_are_caught_and_counted self w thrown :
  exit (m_generator self) = hook_throws thrown ->
  let s := (self, snd (collect_enter self w)) in
  let s0 := run_publishes (publishes (m_generator self)) s in
  exists self1 w1 info w',
    generate_opmon_data s = (Raised thrown, s0)
    /\ try_generate_opmon_data s = (Normal tt, (self1, w1))
    /\ m_error_counter self1
       = wrap metric_bits
           (m_error_counter (fst s0) + Z.of_nat (links thrown))
    /\ m_published_counter self1 = m_published_counter (fst s0)
    /\ m_ignored_counter self1 = m_ignored_counter (fst s0)
    /\ m_cpu_us_counter self1 = m_cpu_us_counter (fst s0)
    /\ diagnostics w1
       = diagnostics (snd s0)
         ++ [ers_error (summary (to_string (get_opmon_id self)) thrown)]
    /\ collect self w = (Normal info, collected self, w')
    /\ n_errors info
       = wrap metric_bits
           (m_error_counter (fst s0) + Z.of_nat (links thrown)
            + total n_errors (child_infos (m_nodes self) w1)).
Proof.
  intros Hexit s s0. subst s0 s.
  set (s := (self, snd (collect_enter self w))).
  pose proof (try_generate_opmon_data_eq s) as Htry.
  pose proof (generate_opmon_data_eq s) as Hgen.
  destruct (run_publishes_frame (publishes (m_generator self)) s)
    as [(_ & _ & Hname & Hparent & _) _].
  change (fst s) with self in *. rewrite Hexit in Htry, Hgen.
  cbv zeta in Htry.
  set (s0 := run_publishes (publishes (m_generator self)) s) in *.
  destruct (collect_result _ _ _ _ Htry) as (w2 & Hresult & _).
  destruct (merged_fields (child_infos (m_nodes self)
              (report (ers_error
                         (summary (to_string (get_opmon_id (fst s0))) thrown))
                 (snd s0))) _
              (own_info_in_range
                 (set_error_counter
                    (wrap metric_bits
                       (m_error_counter (fst s0) + Z.of_nat (links thrown)))
                    (fst s0))))
    as (_ & _ & _ & _ & _ & Herr & _).
  eexists _, _, _, _.
  split; [exact Hgen|]. split; [exact Htry|].
  split; [reflexivity|]. split; [reflexivity|]. split; [reflexivity|].
  split; [reflexivity|]. split.
  { unfold get_opmon_id. rewrite Hname, Hparent. reflexivity. }
  split; [exact Hresult|].
  cbn [n_errors set_clockwall_elapsed_time_us set_n_invalid_links].
  rewrite Herr. unfold own_info. rewrite exchange_counters_eq. simpl.
  rewrite wrap_wrap, wrap_add_l. reflexivity.
Qed.

End CollectProperties.

(** ** The statements on concrete objects *)

Section Evaluations.
Import MonitorableObject Sample.

#[local] Existing Instance headers.

(** C1 as stated fails: a node without children is one live node, and
    [collect] reports no registered node for it. *)
Lemma collect_leaf_registers_nothing :
  exists info self' w',
    collect (leaf "A") world = (Normal info, self', w')
    /\ live_nodes (leaf "A") = 1
    /\ n_registered_nodes info = 0
    /\ n_registered_nodes info <> live_nodes (leaf "A").
Proof.
  eexists _, _, _. split; [vm_compute; reflexivity|].
  cbn [n_registered_nodes]. repeat split; discriminate.
Qed.

(** C2 as stated fails for the eighth field: with a child whose own
    [collect] took 40 microseconds inside a call that took 60, the
    wall-clock time of the result is 60, not what stood in the record of
    the parent when the child was merged (0) plus the 40 of the child. *)
Lemma collect_does_not_sum_wall_clock :
  exists self1 w1 info w',
    try_generate_opmon_data (parent, snd (collect_enter parent world))
    = (Normal tt, (self1, w1))
    /\ collect parent world = (Normal info, collected parent, w')
    /\ clockwall_elapsed_time_us (own_info self1) = 0
    /\ total clockwall_elapsed_time_us (child_infos (m_nodes parent) w1) = 40
    /\ clockwall_elapsed_time_us info = 60
    /\ clockwall_elapsed_time_us info
       <> wrap time_bits
            (clockwall_elapsed_time_us (own_info self1)
             + total clockwall_elapsed_time_us
                 (child_infos (m_nodes parent) w1)).
Proof.
  eexists _, _, _, _. split; [vm_compute; reflexivity|].
  split; [vm_compute; reflexivity|].
  split; [vm_compute; reflexivity|].
  split; [vm_compute; reflexivity|].
  split; [vm_compute; reflexivity|].
  vm_compute. discriminate.
Qed.

(** C3 on the sample root: the name of the live child is refused, the
    name of the child that is gone is taken over. *)
Lemma register_node_on_taken_name_witness :
  register_node "A" (leaf "N") root world
  = (Raised (ThrownIssue (mkIssue (NonUniqueNodeName "A" ".R") None)),
     root, leaf "N", world)
  /\ exists self' w',
       register_node "B" (leaf "N") root world
       = (Normal tt, self',
          inherit_parent_properties root (set_opmon_name "B" (leaf "N")), w')
       /\ find "B" (m_nodes self')
          = Some (Some (inherit_parent_properties root
                          (set_opmon_name "B" (leaf "N")))).
Proof.
  split.
  - exact (register_node_on_taken_name (H:=headers) "A" (leaf "N") root world
             (Some (leaf "A")) eq_refl).
  - destruct (register_node_on_taken_name (H:=headers) "B" (leaf "N") root world
                None eq_refl) as (self' & w' & Hreg & Hfind & _).
    exists self', w'. split; [exact Hreg|exact Hfind].
Defined.

(** C4 on the sample root: one invalid link, and [B] is gone. *)
Lemma collect_prunes_expired_entries_witness :
  exists info self' w',
    collect root world = (Normal info, self', w')
    /\ n_invalid_links info = 1
    /\ find "B" (m_nodes self') = None.
Proof.
  destruct (collect_prunes_expired_entries (H:=headers) root world)
    as (info & self' & w' & Hcollect & _ & _ & _ & _ & _ & Hscenario).
  destruct (Hscenario "A"%string "B"%string (leaf "A")
              ltac:(discriminate) (or_introl eq_refl) eq_refl)
    as (Hinvalid & Hfind & _).
  exists info, self', w'. auto.
Defined.

(** C5 on a node whose hook throws an issue with one cause: two errors. *)
Lemma hook_errors_are_caught_and_counted_witness :
  exists info w',
    collect (node "N" failing []) world
    = (Normal info, collected (node "N" failing []), w')
    /\ n_errors info = 2.
Proof.
  destruct (hook_errors_are_caught_and_counted (H:=headers) (node "N" failing []) world
              _ eq_refl)
    as (self1 & w1 & info & w' & _ & _ & _ & _ & _ & _ & _ & Hcollect & Herr).
  exists info, w'. split; [exact Hcollect|exact Herr].
Defined.

(** C6: a measurement of level 1 on a node of level 0. *)
Lemma publish_below_level_is_ignored_witness :
  m_ignored_counter (fst (publish measurement_x5 ∅ 1 (leaf "A") world)) = 1
  /\ sink (snd (publish measurement_x5 ∅ 1 (leaf "A") world)) = [].
Proof.
  destruct (publish_below_level_is_ignored (H:=headers) measurement_x5 ∅ 1 (leaf "A")
              world eq_refl) as (Hignored & Hsink & _).
  split; [exact Hignored|exact Hsink].
Defined.

(** C7: a measurement without a mapped field, at the level of the node. *)
Lemma publish_without_data_is_dropped_witness :
  fst (publish measurement_unmapped ∅ 0 (leaf "A") world) = leaf "A"
  /\ sink (snd (publish measurement_unmapped ∅ 0 (leaf "A") world)) = [].
Proof.
  destruct (publish_without_data_is_dropped (H:=headers) measurement_unmapped ∅ 0
              (leaf "A") world eq_refl ltac:(vm_compute; reflexivity))
    as (_ & Hsink & Hself & _).
  split; [exact Hself|exact Hsink].
Defined.

(** C8: the repeated field [ys] of the sample measurement. *)
Lemma repeated_field_not_in_data_witness :
  data (OpMonContainer.build_entry 0 measurement_x5 "id") !! "ys" = None.
Proof.
  assert (Hnodup : NoDup (name <$> GetDescriptor measurement_x5)).
  { apply (bool_decide_unpack _). vm_compute. exact I. }
  assert (Hin : field_ys ∈ GetDescriptor measurement_x5).
  { apply list_elem_of_further, list_elem_of_here. }
  destruct (repeated_field_not_in_data 0 measurement_x5 "id"
              OpMonContainer.empty field_ys Hnodup Hin eq_refl)
    as [Hnone _].
  exact Hnone.
Defined.

(** C9: a measurement without a mapped field, appended to a container
    that holds one entry. *)
Lemma unmapped_measurement_yields_no_entry_witness :
  let c := OpMonContainer.run [(0, measurement_x5, "a"%string)]
             OpMonContainer.empty in
  OpMonContainer.add 1 measurement_unmapped "b" c = c
  /\ length (OpMonContainer.entries c) = 1%nat.
Proof.
  assert (Hall : Forall (fun f => ~ OpMonContainer.kind_mapped f)
                   (GetDescriptor measurement_unmapped)).
  { repeat constructor; intros [Hrep Hkind]; discriminate. }
  destruct (unmapped_measurement_yields_no_entry
              [(0, measurement_x5, "a"%string)] 1 measurement_unmapped "b"
              Hall) as (Hadd & _ & _).
  split; [exact Hadd|reflexivity].
Defined.

End Evaluations.

(** * Further properties *)

(** ** The registry as a map *)

Section RegistryProperties.
Import MonitorableObject.
Context `{Headers}.

Implicit Types (self p : t) (w : World) (name other : ElementId)
  (nodes : registry).

Lemma compare_lt_trans (a b c : string) :
  String.compare a b = Lt -> String.compare b c = Lt ->
  String.compare a c = Lt.
Proof.
  intros Hab Hbc. apply String_as_OT.cmp_lt.
  eapply String_as_OT.lt_trans; apply String_as_OT.cmp_lt; eassumption.
Qed.

Lemma compare_gt_lt (a b : string) :
  String.compare a b = Gt -> String.compare b a = Lt.
Proof.
  intros Hab. rewrite String.compare_antisym, Hab. reflexivity.
Qed.

Lemma find_assign_absent name wp nodes other :
  find name nodes = None ->
  other <> name ->
  find other (assign name wp nodes) = find other nodes.
Proof.
  induction nodes as [|[k v] rest IH]; simpl; intros Hnone Hne.
  - destruct (String.compare other name) eqn:Hother; try reflexivity.
    apply String.compare_eq_iff in Hother. contradiction.
  - destruct (String.compare name k) eqn:Hcmp; simpl.
    + discriminate.
    + destruct (String.compare other name) eqn:Hother.
      * apply String.compare_eq_iff in Hother. contradiction.
      * now rewrite (compare_lt_trans _ _ _ Hother Hcmp).
      * reflexivity.
    + destruct (String.compare other k); auto.
Qed.

Lemma length_assign_absent name wp nodes :
  find name nodes = None ->
  length (assign name wp nodes) = S (length nodes).
Proof.
  induction nodes as [|[k v] rest IH]; simpl; intros Hnone.
  - reflexivity.
  - destruct (String.compare name k) eqn:Hcmp; simpl.
    + discriminate.
    + reflexivity.
    + now rewrite IH.
Qed.

Lemma Forall_assign (P : ElementId * weak_ptr -> Prop) name wp nodes :
  P (name, wp) -> Forall P nodes -> Forall P (assign name wp nodes).
Proof.
  intros Hnew. induction 1 as [|[k v] rest Hk Hrest IH]; simpl.
  - constructor; [exact Hnew|constructor].
  - destruct (String.compare name k); constructor; auto.
Qed.

Lemma ordered_assign name wp nodes :
  ordered nodes -> ordered (assign name wp nodes).
Proof.
  induction nodes as [|[k v] rest IH]; simpl.
  - intros _. split; [constructor|exact I].
  - intros [Hhead Hrest].
    destruct (String.compare name k) eqn:Hcmp; simpl.
    + apply String.compare_eq_iff in Hcmp. subst k. auto.
    + split; [|auto]. constructor; [exact Hcmp|].
      eapply Forall_impl; [exact Hhead|].
      intros e He. simpl in *. eapply compare_lt_trans; eassumption.
    + split; [|auto]. apply Forall_assign; [|exact Hhead].
      simpl. now apply compare_gt_lt.
Qed.

(** X1. When no entry of the registry has the name, [register_node]
    returns without a warning: the name now resolves to the child, which
    has taken the name and the properties of the node; every other name
    resolves as before; the registry has one entry more; the only
    diagnostic is the trace of the registration. *)
Theorem register_node_on_fresh_name name p self w :
  find name (m_nodes self) = None ->
  let p' := inherit_parent_properties self (set_opmon_name name p) in
  exists self' w',
    register_node name p self w = (Normal tt, self', p', w')
    /\ find name (m_nodes self') = Some (Some p')
    /\ (forall other, other <> name ->
          find other (m_nodes self') = find other (m_nodes self))
    /\ length (m_nodes self') = S (length (m_nodes self))
    /\ diagnostics w'
       = diagnostics w
         ++ [TLOG ("Node " +:+ name +:+ " registered to "
                   +:+ to_string (get_opmon_id self))]
    /\ sink w' = sink w.
Proof.
  intros Hfind p'. unfold register_node. rewrite Hfind.
  eexists _, _. split; [reflexivity|]. simpl.
  split; [apply find_assign_same|].
  split; [intros other Hne; now apply find_assign_absent|].
  split; [now apply length_assign_absent|]. auto.
Qed.

(** X2. [register_node] keeps the registry a well-formed map: when the
    keys were strictly increasing before the call they are so after it,
    whether the call returns or throws. *)
Theorem register_node_keeps_keys_ordered name p self w :
  ordered (m_nodes self) ->
  let self' := snd (fst (fst (register_node name p self w))) in
  ordered (m_nodes self').
Proof.
  intros Hordered. unfold register_node.
  destruct (find name (m_nodes self)) as [[holder|]|]; simpl;
    try exact Hordered; now apply ordered_assign.
Qed.

End RegistryProperties.

(** ** Pushing properties down the tree *)

Section PropagationProperties.
Import MonitorableObject.
Context `{Headers}.

Implicit Types (self parent : t) (nodes : registry) (l : OpMonLevel).

Lemma inherit_children_eq (visit : t -> t) nodes :
  inherit_children visit nodes = for_each_live visit nodes.
Proof. reflexivity. Qed.

Lemma for_each_live_live (visit : t -> t) key c rest :
  for_each_live visit ((key, Some c) :: rest)
  = (key, Some (visit c)) :: for_each_live visit rest.
Proof. reflexivity. Qed.

Lemma for_each_live_expired (visit : t -> t) key rest :
  for_each_live visit ((key, None) :: rest)
  = (key, None) :: for_each_live visit rest.
Proof. reflexivity. Qed.

Lemma for_each_live_shape (visit : t -> t) nodes :
  shape (for_each_live visit nodes) = shape nodes.
Proof.
  induction nodes as [|[key [c|]] rest IH];
    rewrite ?for_each_live_live, ?for_each_live_expired;
    [reflexivity| |]; unfold shape in *; cbn [List.map fst snd expired];
    now rewrite IH.
Qed.

Lemma for_each_live_length (visit : t -> t) nodes :
  length (for_each_live visit nodes) = length nodes.
Proof. apply length_map. Qed.

Lemma for_each_live_stale_here (visit : t -> t) nodes :
  stale_here (for_each_live visit nodes) = stale_here nodes.
Proof.
  induction nodes as [|[key [c|]] rest IH];
    rewrite ?for_each_live_live, ?for_each_live_expired.
  - reflexivity.
  - now rewrite !stale_here_live.
  - now rewrite !stale_here_expired, IH.
Qed.

Lemma for_each_live_over_live (visit : t -> t) (measure : t -> Z) nodes :
  Forall (fun e => forall c, snd e = Some c -> measure (visit c) = measure c)
    nodes ->
  over_live measure (for_each_live visit nodes) = over_live measure nodes.
Proof.
  induction 1 as [|[key [c|]] rest Hc Hrest IH];
    rewrite ?for_each_live_live, ?for_each_live_expired; cbn [over_live].
  - reflexivity.
  - now rewrite (Hc c eq_refl), IH.
  - exact IH.
Qed.

Lemma for_each_live_all_live (visit : t -> t) (P : t -> Prop) nodes :
  Forall (fun e => forall c, snd e = Some c -> P (visit c)) nodes ->
  all_live P (for_each_live visit nodes).
Proof.
  induction 1 as [|[key [c|]] rest Hc Hrest IH];
    rewrite ?for_each_live_live, ?for_each_live_expired; cbn [all_live].
  - exact I.
  - split; [apply (Hc c eq_refl)|exact IH].
  - exact IH.
Qed.

Lemma for_each_live_fixed (visit : t -> t) nodes :
  Forall (fun e => forall c, snd e = Some c -> visit c = c) nodes ->
  for_each_live visit nodes = nodes.
Proof.
  induction 1 as [|[key [c|]] rest Hc Hrest IH];
    rewrite ?for_each_live_live, ?for_each_live_expired.
  - reflexivity.
  - now rewrite (Hc c eq_refl), IH.
  - now rewrite IH.
Qed.

Lemma for_each_live_compose (f g : t -> t) nodes :
  for_each_live f (for_each_live g nodes)
  = for_each_live (fun c => f (g c)) nodes.
Proof.
  induction nodes as [|[key [c|]] rest IH];
    rewrite ?for_each_live_live, ?for_each_live_expired;
    [reflexivity| |]; now rewrite IH.
Qed.

Lemma for_each_live_ext (f g : t -> t) nodes :
  Forall (fun e => forall c, snd e = Some c -> f c = g c) nodes ->
  for_each_live f nodes = for_each_live g nodes.
Proof.
  induction 1 as [|[key [c|]] rest Hc Hrest IH];
    rewrite ?for_each_live_live, ?for_each_live_expired.
  - reflexivity.
  - now rewrite (Hc c eq_refl), IH.
  - now rewrite IH.
Qed.

Lemma all_live_Forall (P : t -> Prop) nodes :
  all_live P nodes <-> Forall (fun e => forall c, snd e = Some c -> P c) nodes.
Proof.
  induction nodes as [|[key [c|]] rest IH]; simpl.
  - split; [constructor|exact (fun _ => I)].
  - split.
    + intros [Hc Hrest]. constructor; [|now apply IH].
      simpl. intros c' Hc'. injection Hc' as <-. exact Hc.
    + intros Hall. inversion Hall as [|? ? Hc Hrest]; subst.
      split; [apply (Hc c eq_refl)|now apply IH].
  - split.
    + intros Hrest. constructor; [|now apply IH]. simpl. discriminate.
    + intros Hall. inversion Hall as [|? ? Hc Hrest]; subst. now apply IH.
Qed.

Lemma all_nodes_unfold (P : t -> Prop) self :
  all_nodes P self <-> P self /\ all_live (all_nodes P) (m_nodes self).
Proof. destruct self; reflexivity. Qed.

Lemma inherited_below_unfold self :
  inherited_below self
  <-> all_live
        (fun c =>
           m_facility c = m_facility self
           /\ m_opmon_level c = m_opmon_level self
           /\ m_parent_id c = get_opmon_id self
           /\ inherited_below c)
        (m_nodes self).
Proof. destruct self; reflexivity. Qed.

Lemma inherit_properties_unfold f id l self :
  inherit_properties f id l self
  = set_nodes
      (for_each_live
         (inherit_properties f (append_element id (m_opmon_name self)) l)
         (m_nodes self))
      (set_inherited f id l self).
Proof. destruct self; reflexivity. Qed.

Lemma set_opmon_level_unfold l self :
  set_opmon_level l self
  = set_nodes (for_each_live (set_opmon_level l) (m_nodes self))
      (set_level l self).
Proof. destruct self; reflexivity. Qed.

(** *** inherit_parent_properties *)

Lemma inherit_properties_spreads : forall self f id l,
  let self' := inherit_properties f id l self in
  m_facility self' = f
  /\ m_opmon_level self' = l
  /\ m_parent_id self' = id
  /\ inherited_below self'.
Proof.
  induction self as [self Hkids] using tree_ind. intros f id l.
  cbv zeta. rewrite inherit_properties_unfold.
  split; [reflexivity|]. split; [reflexivity|]. split; [reflexivity|].
  apply inherited_below_unfold. cbn [m_nodes set_nodes].
  apply for_each_live_all_live.
  eapply Forall_impl; [exact Hkids|].
  intros e He c Hc.
  destruct (He c Hc f (append_element id (m_opmon_name self)) l)
    as (Hf & Hl & Hid & Hbelow).
  rewrite Hf, Hl, Hid. repeat split; try reflexivity; exact Hbelow.
Qed.

Lemma inherit_properties_keeps : forall self f id l,
  let self' := inherit_properties f id l self in
  m_opmon_name self' = m_opmon_name self
  /\ m_generator self' = m_generator self
  /\ m_published_counter self' = m_published_counter self
  /\ m_ignored_counter self' = m_ignored_counter self
  /\ m_error_counter self' = m_error_counter self
  /\ m_cpu_us_counter self' = m_cpu_us_counter self
  /\ shape (m_nodes self') = shape (m_nodes self)
  /\ live_nodes self' = live_nodes self
  /\ registry_links self' = registry_links self
  /\ stale_links self' = stale_links self.
Proof.
  induction self as [self Hkids] using tree_ind. intros f id l.
  cbv zeta. rewrite inherit_properties_unfold.
  rewrite live_nodes_unfold, registry_links_unfold, stale_links_unfold.
  rewrite (live_nodes_unfold self), (registry_links_unfold self),
    (stale_links_unfold self).
  cbn [m_nodes set_nodes m_opmon_name m_generator m_published_counter
       m_ignored_counter m_error_counter m_cpu_us_counter set_inherited].
  rewrite for_each_live_shape, for_each_live_length, for_each_live_stale_here.
  rewrite !for_each_live_over_live.
  - destruct self; simpl; repeat split; reflexivity.
  - eapply Forall_impl; [exact Hkids|]. intros e He c Hc. apply (He c Hc).
  - eapply Forall_impl; [exact Hkids|]. intros e He c Hc. apply (He c Hc).
  - eapply Forall_impl; [exact Hkids|]. intros e He c Hc. apply (He c Hc).
Qed.

(** X3. After [inherit_parent_properties] an object has the facility, the
    level and, as parent identifier, the identifier of the parent, and the
    same holds all the way down: every live object below has the facility
    and the level of the object above it and that object's identifier as
    parent identifier. *)
Theorem inherit_parent_properties_spreads parent self :
  let self' := inherit_parent_properties parent self in
  m_facility self' = m_facility parent
  /\ m_opmon_level self' = get_opmon_level parent
  /\ m_parent_id self' = get_opmon_id parent
  /\ inherited_below self'
  /\ all_nodes (fun n => m_facility n = m_facility parent
                         /\ m_opmon_level n = get_opmon_level parent) self'.
Proof.
  cbv zeta. unfold inherit_parent_properties.
  destruct (inherit_properties_spreads self (m_facility parent)
              (get_opmon_id parent) (get_opmon_level parent))
    as (Hf & Hl & Hid & Hbelow).
  repeat (split; [assumption|]).
  generalize (m_facility parent) (get_opmon_id parent)
    (get_opmon_level parent). clear.
  induction self as [self Hkids] using tree_ind. intros f id l.
  rewrite inherit_properties_unfold. apply all_nodes_unfold.
  split; [split; reflexivity|]. cbn [m_nodes set_nodes].
  apply for_each_live_all_live.
  eapply Forall_impl; [exact Hkids|]. intros e He c Hc. apply (He c Hc).
Qed.

(** X4. [inherit_parent_properties] changes nothing else: the name, the
    hook and the four counters of the object are as before, its registry
    has the same keys with the same entries expired, and the tree below has
    as many live nodes, registry entries and stale links as before. *)
Theorem inherit_parent_properties_keeps_the_rest parent self :
  let self' := inherit_parent_properties parent self in
  m_opmon_name self' = m_opmon_name self
  /\ m_generator self' = m_generator self
  /\ m_published_counter self' = m_published_counter self
  /\ m_ignored_counter self' = m_ignored_counter self
  /\ m_error_counter self' = m_error_counter self
  /\ m_cpu_us_counter self' = m_cpu_us_counter self
  /\ shape (m_nodes self') = shape (m_nodes self)
  /\ live_nodes self' = live_nodes self
  /\ registry_links self' = registry_links self
  /\ stale_links self' = stale_links self.
Proof. apply inherit_properties_keeps. Qed.

(** *** set_opmon_level *)

(** X5. [set_opmon_level] gives the level to the object and to every live
    object reachable from it, and prunes nothing: the registry of the
    object has the same keys with the same entries expired, the tree has as
    many live nodes and stale links as before, and the name, the parent
    identifier, the facility, the hook and the counters of the object are
    untouched. *)
Theorem set_opmon_level_reaches_every_node : forall self l,
  let self' := set_opmon_level l self in
  all_nodes (fun n => m_opmon_level n = l) self'
  /\ shape (m_nodes self') = shape (m_nodes self)
  /\ live_nodes self' = live_nodes self
  /\ stale_links self' = stale_links self
  /\ m_opmon_name self' = m_opmon_name self
  /\ m_parent_id self' = m_parent_id self
  /\ m_facility self' = m_facility self
  /\ m_generator self' = m_generator self
  /\ m_published_counter self' = m_published_counter self
  /\ m_ignored_counter self' = m_ignored_counter self
  /\ m_error_counter self' = m_error_counter self
  /\ m_cpu_us_counter self' = m_cpu_us_counter self.
Proof.
  induction self as [self Hkids] using tree_ind. intros l.
  cbv zeta. rewrite set_opmon_level_unfold.
  rewrite live_nodes_unfold, stale_links_unfold.
  rewrite (live_nodes_unfold self), (stale_links_unfold self).
  cbn [m_nodes set_nodes].
  rewrite for_each_live_shape, for_each_live_stale_here.
  rewrite !for_each_live_over_live.
  - split; [|destruct self; repeat split; reflexivity].
    apply all_nodes_unfold. split; [reflexivity|]. cbn [m_nodes set_nodes].
    apply for_each_live_all_live.
    eapply Forall_impl; [exact Hkids|]. intros e He c Hc. apply (He c Hc).
  - eapply Forall_impl; [exact Hkids|]. intros e He c Hc. apply (He c Hc).
  - eapply Forall_impl; [exact Hkids|]. intros e He c Hc. apply (He c Hc).
Qed.

(** X6. Of two calls of [set_opmon_level] the last one wins: the tree is
    as if the first had not been made. In particular a call made twice is
    as good as made once. *)
Theorem set_opmon_level_last_wins : forall self l1 l2,
  set_opmon_level l2 (set_opmon_level l1 self) = set_opmon_level l2 self.
Proof.
  induction self as [self Hkids] using tree_ind. intros l1 l2.
  rewrite (set_opmon_level_unfold l1 self).
  rewrite (set_opmon_level_unfold l2 self).
  rewrite set_opmon_level_unfold. cbn [m_nodes set_nodes].
  rewrite for_each_live_compose.
  rewrite (for_each_live_ext
             (fun c => set_opmon_level l2 (set_opmon_level l1 c))
             (set_opmon_level l2) (m_nodes self)).
  - destruct self; reflexivity.
  - eapply Forall_impl; [exact Hkids|]. intros e He c Hc. apply (He c Hc).
Qed.

(** X7. On a tree whose live nodes all have the level already,
    [set_opmon_level] changes nothing at all. *)
Theorem set_opmon_level_at_level_is_identity : forall self l,
  all_nodes (fun n => m_opmon_level n = l) self ->
  set_opmon_level l self = self.
Proof.
  induction self as [self Hkids] using tree_ind. intros l Hall.
  apply all_nodes_unfold in Hall. destruct Hall as [Hlevel Hbelow].
  rewrite set_opmon_level_unfold, for_each_live_fixed.
  - destruct self; simpl in *. now subst l.
  - apply all_live_Forall in Hbelow.
    apply Forall_forall. intros e He c Hc.
    rewrite Forall_forall in Hkids, Hbelow.
    apply (Hkids e He c Hc). apply (Hbelow e He c Hc).
Qed.

End PropagationProperties.

(** ** More on publish *)

Section ForwardingProperties.
Import MonitorableObject.
Context `{Headers}.

Implicit Types (self : t) (w : World) (m : Message) (co : CustomOrigin)
  (l : OpMonLevel).

(** X8. A call of [publish] whose level passes and whose flattened entry
    has data hands exactly one entry to the facility of the node: the
    flattened entry, with the identifier of the node as origin and the time
    read when the call began. When the facility takes it the published
    counter goes up by one and nothing is reported; when the facility
    throws [OpMonPublishFailure] the error counter goes up by one instead
    and the failure is reported as an error. The ignored counter is
    untouched either way. *)
Theorem publish_forwards_stamped_entry m co l self w :
  publishable_metric l (get_opmon_level self) = true ->
  data (to_entry m co) <> ∅ ->
  let self' := fst (publish m co l self w) in
  let w' := snd (publish m co l self w) in
  let e := stamped m co self w in
  sink w' = sink w ++ [(facility_name (m_facility self), e)]
  /\ origin e = get_opmon_id self
  /\ time e = current_time w (current_time_reads w)
  /\ data e = data (to_entry m co)
  /\ measurement e = measurement (to_entry m co)
  /\ m_ignored_counter self' = m_ignored_counter self
  /\ if accepts (m_facility self) e then
       m_published_counter self'
       = wrap metric_bits (m_published_counter self + 1)
       /\ m_error_counter self' = m_error_counter self
       /\ diagnostics w' = diagnostics w
     else
       m_error_counter self' = wrap metric_bits (m_error_counter self + 1)
       /\ m_published_counter self' = m_published_counter self
       /\ diagnostics w'
          = diagnostics w ++ [ers_error (mkIssue OpMonPublishFailure None)].
Proof.
  intros Hlevel Hdata. cbv zeta.
  rewrite publish_forwarded by assumption. cbv zeta.
  destruct (accepts (m_facility self) (stamped m co self w));
    simpl; repeat split; reflexivity.
Qed.

Lemma publish_forwards_counters m co l self w :
  publishable_metric l (get_opmon_level self) = true ->
  data (to_entry m co) <> ∅ ->
  let self' := fst (publish m co l self w) in
  let taken := accepts (m_facility self) (stamped m co self w) in
  m_published_counter self'
  = (if taken then wrap metric_bits (m_published_counter self + 1)
     else m_published_counter self)
  /\ m_error_counter self'
     = (if taken then m_error_counter self
        else wrap metric_bits (m_error_counter self + 1))
  /\ m_ignored_counter self' = m_ignored_counter self.
Proof.
  intros Hlevel Hdata. cbv zeta.
  rewrite publish_forwarded by assumption. cbv zeta.
  destruct (accepts (m_facility self) (stamped m co self w));
    simpl; repeat split; reflexivity.
Qed.

(** X9. Calls of [publish] below the level of the node add up: after a
    run of such calls the ignored counter has gone up by their number, the
    other counters have not moved and no facility has been given
    anything. *)
Theorem ignored_publishes_accumulate calls : forall self w,
  Forall (fun c => publishable_metric (call_level c) (get_opmon_level self)
                   = false) calls ->
  wrap metric_bits (m_ignored_counter self) = m_ignored_counter self ->
  let self' := fst (run_publishes calls (self, w)) in
  let w' := snd (run_publishes calls (self, w)) in
  m_ignored_counter self'
  = wrap metric_bits (m_ignored_counter self + Z.of_nat (length calls))
  /\ m_published_counter self' = m_published_counter self
  /\ m_error_counter self' = m_error_counter self
  /\ m_cpu_us_counter self' = m_cpu_us_counter self
  /\ sink w' = sink w.
Proof.
  induction calls as [|c calls IH]; intros self w Hall Hrange; cbv zeta.
  - cbn [run_publishes fold_left fst snd length Z.of_nat].
    rewrite Z.add_0_r, Hrange. tauto.
  - inversion Hall as [|? ? Hc Hrest]; subst.
    rewrite run_publishes_cons, publish_ignored by exact Hc.
    set (self1 := set_ignored_counter
                    (wrap metric_bits (m_ignored_counter self + 1)) self).
    set (w1 := report _ _).
    assert (Hlevel : get_opmon_level self1 = get_opmon_level self)
      by reflexivity.
    rewrite <- Hlevel in Hrest.
    destruct (IH self1 w1 Hrest (wrap_wrap _ _))
      as (Hign & Hpub & Herr & Hcpu & Hsink).
    rewrite Hign, Hpub, Herr, Hcpu, Hsink. subst self1 w1.
    cbn [m_ignored_counter m_published_counter m_error_counter
         m_cpu_us_counter set_ignored_counter length].
    rewrite wrap_add_l, Nat2Z.inj_succ. repeat split. f_equal. lia.
Qed.

End ForwardingProperties.

(** ** More on collect *)

Section WorldProperties.
Import MonitorableObject.
Context `{Headers}.

Implicit Types (self : t) (w : World) (nodes : registry).

Lemma grows_refl w : grows w w.
Proof.
  unfold grows. split; [exists []; rewrite app_nil_r; auto|].
  split; [exists []; now rewrite app_nil_r|]. auto.
Qed.

Lemma grows_trans w1 w2 w3 : grows w1 w2 -> grows w2 w3 -> grows w1 w3.
Proof.
  unfold grows.
  intros ((h1 & Hs1 & Hd1) & (r1 & Hr1) & Hc1 & Ht1 & Hn1 & Hm1)
         ((h2 & Hs2 & Hd2) & (r2 & Hr2) & Hc2 & Ht2 & Hn2 & Hm2).
  split.
  { exists (h1 ++ h2). rewrite Hs2, Hs1, app_assoc. split; [reflexivity|].
    apply Forall_app. auto. }
  split; [exists (r1 ++ r2); now rewrite Hr2, Hr1, app_assoc|].
  repeat split; try congruence; lia.
Qed.

Lemma now_grows w : grows w (snd (now w)).
Proof.
  unfold grows. simpl. split; [exists []; rewrite app_nil_r; auto|].
  split; [exists []; now rewrite app_nil_r|]. auto.
Qed.

Lemma GetCurrentTime_grows w : grows w (snd (GetCurrentTime w)).
Proof.
  unfold grows. simpl. split; [exists []; rewrite app_nil_r; auto|].
  split; [exists []; now rewrite app_nil_r|]. auto.
Qed.

Lemma report_grows d w : grows w (report d w).
Proof.
  unfold grows. simpl. split; [exists []; rewrite app_nil_r; auto|].
  split; [exists [d]; reflexivity|]. auto.
Qed.

Lemma hand_over_grows f e w : data e <> ∅ -> grows w (hand_over f e w).
Proof.
  intros He. unfold grows. simpl.
  split; [exists [(facility_name f, e)]; split; [reflexivity|]; auto|].
  split; [exists []; now rewrite app_nil_r|]. auto.
Qed.

Lemma publish_grows m co l self w : grows w (snd (publish m co l self w)).
Proof.
  pose proof (grows_trans _ _ _ (GetCurrentTime_grows w)
                (now_grows (snd (GetCurrentTime w)))) as Hstart.
  destruct (publishable_metric l (get_opmon_level self)) eqn:Hlevel.
  - destruct (decide (data (to_entry m co) = ∅)) as [Hempty|Hdata].
    + rewrite publish_no_data by assumption. cbn [snd].
      eapply grows_trans; [exact Hstart|apply report_grows].
    + rewrite publish_forwarded by assumption. cbv zeta.
      assert (Hhand : grows w (hand_over (m_facility self)
                                 (stamped m co self w)
                                 (snd (now (snd (GetCurrentTime w)))))).
      { eapply grows_trans; [exact Hstart|]. apply hand_over_grows.
        exact Hdata. }
      destruct (accepts _ _); cbn [snd].
      * eapply grows_trans; [exact Hhand|apply now_grows].
      * eapply grows_trans; [exact Hhand|].
        eapply grows_trans; [apply report_grows|apply now_grows].
  - rewrite publish_ignored by assumption. cbn [snd].
    eapply grows_trans; [exact Hstart|apply report_grows].
Qed.

Lemma run_publishes_grows calls : forall self w,
  grows w (snd (run_publishes calls (self, w))).
Proof.
  induction calls as [|c calls IH]; intros self w.
  - apply grows_refl.
  - rewrite run_publishes_cons.
    destruct (publish (call_message c) (call_origin c) (call_level c) self w)
      as [self1 w1] eqn:Hpub.
    eapply grows_trans; [|apply IH].
    change w1 with (snd (self1, w1)). rewrite <- Hpub. apply publish_grows.
Qed.

Lemma try_generate_opmon_data_grows self w :
  grows w (snd (snd (try_generate_opmon_data (self, w)))).
Proof.
  rewrite try_generate_opmon_data_eq. cbn [fst snd].
  pose proof (run_publishes_grows (publishes (m_generator self)) self w)
    as Hrun.
  destruct (exit (m_generator self)); cbn [snd]; [exact Hrun|].
  eapply grows_trans; [exact Hrun|apply report_grows].
Qed.

Lemma collect_own_grows self w : grows w (snd (collect_own self w)).
Proof.
  destruct (try_generate_opmon_data_frame self (snd (collect_enter self w)))
    as (self1 & w1 & Htry & _ & _).
  pose proof (try_generate_opmon_data_grows self (snd (collect_enter self w)))
    as Hgrows.
  rewrite (collect_own_eq _ _ _ _ Htry). rewrite Htry in Hgrows.
  cbn [snd] in *.
  eapply grows_trans; [|exact Hgrows].
  unfold collect_enter. cbn [snd].
  eapply grows_trans; [apply now_grows|apply report_grows].
Qed.

Lemma collect_children_grows nodes :
  Forall (fun e => forall c, snd e = Some c ->
            forall w, grows w (snd (collect c w))) nodes ->
  forall info n w,
    grows w (snd (collect_children collect nodes info n w)).
Proof.
  induction 1 as [|[key [c|]] rest Hc Hrest IH]; intros info n w;
    cbn [collect_children lock].
  - apply grows_refl.
  - pose proof (Hc c eq_refl w) as Hchild.
    destruct (collect c w) as [[[child_info|thrown] c'] w1];
      cbn [snd expired] in *; [|exact Hchild].
    pose proof (IH (merge_child_info info child_info) n w1) as Hloop.
    destruct (collect_children collect rest _ n w1) as [[result kept] w2].
    cbn [snd] in *. eapply grows_trans; eassumption.
  - cbn [expired]. apply IH.
Qed.

Lemma collect_grows : forall self w, grows w (snd (collect self w)).
Proof.
  induction self as [self Hkids] using tree_ind. intros w.
  rewrite collect_unfold.
  pose proof (collect_own_grows self w) as Hown.
  destruct (collect_own self w) as [[[[start info]|thrown] self1] w1];
    cbn [snd] in *; [|exact Hown].
  pose proof (collect_children_grows _ Hkids info 0 w1) as Hloop.
  destruct (collect_children collect (m_nodes self) info 0 w1)
    as [[[[info' n]|thrown] kept] w2]; cbn [snd] in *.
  - eapply grows_trans; [exact Hown|].
    eapply grows_trans; [exact Hloop|apply now_grows].
  - eapply grows_trans; eassumption.
Qed.

(** X10. [collect] only adds to the world around the tree: what had been
    handed to facilities and what had been reported before the call is
    still there, in order, followed by what the call added; and whatever
    entry reached a facility during the call, from whichever node of the
    tree, has data. *)
Theorem collect_only_adds_to_the_world self w :
  exists info w',
    collect self w = (Normal info, collected self, w')
    /\ (exists handed,
          sink w' = sink w ++ handed
          /\ Forall (fun he => data (snd he) <> ∅) handed)
    /\ (exists reported, diagnostics w' = diagnostics w ++ reported)
    /\ (clock_reads w + 2 <= clock_reads w')%nat.
Proof.
  destruct (collect_returns self w) as (info & w' & Hcollect & _).
  pose proof (collect_grows self w) as Hgrows.
  exists info, w'. split; [exact Hcollect|].
  rewrite Hcollect in Hgrows. cbn [snd] in Hgrows.
  destruct Hgrows as (Hsink & Hdiag & _).
  split; [exact Hsink|]. split; [exact Hdiag|].
  (* the call itself reads the clock when it starts and when it stops *)
  rewrite collect_unfold in Hcollect.
  pose proof (collect_own_grows self w) as Hown.
  destruct (try_generate_opmon_data_frame self (snd (collect_enter self w)))
    as (self1 & w1 & Htry & _ & _).
  pose proof (try_generate_opmon_data_grows self (snd (collect_enter self w)))
    as Htrygrows.
  rewrite Htry in Htrygrows. cbn [snd] in Htrygrows.
  rewrite (collect_own_eq _ _ _ _ Htry) in Hcollect.
  assert (Hkids :
    Forall (fun e => forall c, snd e = Some c ->
              forall w, grows w (snd (collect c w))) (m_nodes self)).
  { apply Forall_forall. intros e _ c _. apply collect_grows. }
  pose proof (collect_children_grows _ Hkids (own_info self1) 0 w1) as Hloop.
  destruct (collect_children collect (m_nodes self) (own_info self1) 0 w1)
    as [[[[info' n]|thrown] kept] w2]; [|discriminate].
  cbn [snd] in Hloop. injection Hcollect as _ _ <-.
  destruct Htrygrows as (_ & _ & _ & _ & Hreads1 & _).
  destruct Hloop as (_ & _ & _ & _ & Hreads2 & _).
  unfold collect_enter in Hreads1. simpl in *. lia.
Qed.

End WorldProperties.

Section SettledProperties.
Import MonitorableObject.
Context `{Headers}.

Implicit Types (self : t) (w : World) (nodes : registry).

(** *** The tree that [collect] leaves *)

Lemma prune_prune (f g : t -> t) nodes :
  prune f (prune g nodes) = prune (fun c => f (g c)) nodes.
Proof.
  induction nodes as [|[key [c|]] rest IH]; simpl; congruence.
Qed.

Lemma prune_ext (f g : t -> t) nodes :
  Forall (fun e => forall c, snd e = Some c -> f c = g c) nodes ->
  prune f nodes = prune g nodes.
Proof.
  induction 1 as [|[key [c|]] rest Hc Hrest IH]; simpl;
    try rewrite (Hc c eq_refl); congruence.
Qed.

Lemma prune_stale_here (f : t -> t) nodes : stale_here (prune f nodes) = 0.
Proof.
  induction nodes as [|[key [c|]] rest IH]; simpl; auto.
Qed.

Lemma prune_over_live (f : t -> t) (measure : t -> Z) nodes :
  over_live measure (prune f nodes)
  = over_live (fun c => measure (f c)) nodes.
Proof.
  induction nodes as [|[key [c|]] rest IH]; simpl; congruence.
Qed.

Lemma over_live_ext (f g : t -> Z) nodes :
  Forall (fun e => forall c, snd e = Some c -> f c = g c) nodes ->
  over_live f nodes = over_live g nodes.
Proof.
  induction 1 as [|[key [c|]] rest Hc Hrest IH]; simpl;
    try rewrite (Hc c eq_refl); congruence.
Qed.

Lemma over_live_zero (f : t -> Z) nodes :
  Forall (fun e => forall c, snd e = Some c -> f c = 0) nodes ->
  over_live f nodes = 0.
Proof.
  induction 1 as [|[key [c|]] rest Hc Hrest IH]; simpl;
    try rewrite (Hc c eq_refl); auto.
Qed.

Lemma prune_all_live (f : t -> t) (P : t -> Prop) nodes :
  Forall (fun e => forall c, snd e = Some c -> P (f c)) nodes ->
  all_live P (prune f nodes).
Proof.
  induction 1 as [|[key [c|]] rest Hc Hrest IH]; simpl; auto.
Qed.

Lemma tree_sum_unfold (f : t -> Z) self :
  tree_sum f self = f self + over_live (tree_sum f) (m_nodes self).
Proof. destruct self; reflexivity. Qed.

Lemma collected_settles : forall self,
  collected (collected self) = collected self
  /\ live_nodes (collected self) = live_nodes self
  /\ stale_links (collected self) = 0
  /\ erased_links (collected self) = 0.
Proof.
  induction self as [self Hkids] using tree_ind.
  rewrite (collected_unfold (collected self)).
  rewrite live_nodes_unfold, stale_links_unfold, erased_links_unfold.
  rewrite m_nodes_collected, prune_prune, prune_stale_here, !prune_over_live.
  rewrite (prune_ext (fun c => collected (collected c)) collected),
    (over_live_ext (fun c => live_nodes (collected c)) live_nodes),
    (over_live_zero (fun c => stale_links (collected c))),
    (over_live_zero (fun c => erased_links (collected c))).
  - rewrite <- live_nodes_unfold, wrap_0.
    split; [|auto]. rewrite (collected_unfold self).
    destruct self; reflexivity.
  - eapply Forall_impl; [exact Hkids|]. intros e He c Hc. apply (He c Hc).
  - eapply Forall_impl; [exact Hkids|]. intros e He c Hc. apply (He c Hc).
  - eapply Forall_impl; [exact Hkids|]. intros e He c Hc. apply (He c Hc).
  - eapply Forall_impl; [exact Hkids|]. intros e He c Hc. apply (He c Hc).
Qed.

Lemma collected_at_zero : forall self,
  all_nodes counters_at_zero (collected self).
Proof.
  induction self as [self Hkids] using tree_ind.
  apply all_nodes_unfold. rewrite m_nodes_collected.
  split; [rewrite collected_unfold; unfold counters_at_zero; simpl; auto|].
  apply prune_all_live. exact Hkids.
Qed.

Lemma collected_keeps (P : t -> Prop) :
  (forall n, P n -> P (set_nodes (m_nodes n) (reset_counters n))) ->
  (forall n nodes, P n -> P (set_nodes nodes n)) ->
  forall self, all_nodes P self -> all_nodes P (collected self).
Proof.
  intros Hreset Hnodes.
  induction self as [self Hkids] using tree_ind. intros Hall.
  apply all_nodes_unfold in Hall. destruct Hall as [Hself Hbelow].
  apply all_nodes_unfold. rewrite m_nodes_collected.
  split.
  - rewrite collected_unfold.
    apply (Hnodes (reset_counters self)).
    specialize (Hreset self Hself). destruct self; exact Hreset.
  - apply prune_all_live. apply all_live_Forall in Hbelow.
    apply Forall_forall. intros e He c Hc.
    rewrite Forall_forall in Hkids, Hbelow.
    apply (Hkids e He c Hc). apply (Hbelow e He c Hc).
Qed.

(** X11. A second [collect] finds the tree as the first one left it: it
    changes nothing in the objects of the tree, finds no invalid link, and
    counts as registered the live nodes of the tree other than the root. *)
Theorem collect_settles_the_tree self w :
  exists info1 self1 w1,
    collect self w = (Normal info1, self1, w1)
    /\ forall w2,
         exists info2 w2',
           collect self1 w2 = (Normal info2, self1, w2')
           /\ n_invalid_links info2 = 0
           /\ n_registered_nodes info2
              = wrap node_count_bits (live_nodes self - 1).
Proof.
  destruct (collect_returns self w) as (info1 & w1 & Hfirst & _).
  destruct (collected_settles self) as (Hidem & Hlive & Hstale & Herased).
  exists info1, (collected self), w1. split; [exact Hfirst|]. intros w2.
  destruct (collect_returns (collected self) w2)
    as (info2 & w2' & Hsecond & _).
  destruct (collect_counts_links _ _ _ _ _ Hsecond) as [Hreg Hinv].
  exists info2, w2'. rewrite Hidem in Hsecond. split; [exact Hsecond|].
  rewrite Hinv, Herased, wrap_0. split; [reflexivity|].
  rewrite Hreg, registry_links_split, Hlive, Hstale. f_equal. lia.
Qed.

End SettledProperties.

Section QuietProperties.
Import MonitorableObject.
Context `{Headers}.

Implicit Types (self : t) (w : World) (nodes : registry).

(** *** Trees whose hooks publish nothing *)

Lemma quiet_try_generate_opmon_data self w :
  quiet self -> try_generate_opmon_data (self, w) = (Normal tt, (self, w)).
Proof.
  intros [Hpublishes Hexit]. rewrite try_generate_opmon_data_eq.
  cbn [fst]. now rewrite Hpublishes, Hexit.
Qed.

Lemma quiet_collect_totals : forall self,
  all_nodes quiet self ->
  forall w info self' w',
    collect self w = (Normal info, self', w') ->
    n_published_measurements info
    = wrap metric_bits (tree_sum m_published_counter self)
    /\ n_ignored_measurements info
       = wrap metric_bits (tree_sum m_ignored_counter self)
    /\ n_errors info = wrap metric_bits (tree_sum m_error_counter self)
    /\ cpu_elapsed_time_us info
       = wrap time_bits (tree_sum m_cpu_us_counter self)
    /\ n_publishing_nodes info = wrap node_count_bits (tree_sum publishing self).
Proof.
  induction self as [self Hkids] using tree_ind.
  intros Hall w info self' w' Hcollect.
  apply all_nodes_unfold in Hall. destruct Hall as [Hquiet Hbelow].
  pose proof (quiet_try_generate_opmon_data self (snd (collect_enter self w))
                Hquiet) as Htry.
  destruct (collect_result _ _ _ _ Htry) as (w2 & Hresult & _).
  remember (snd (collect_enter self w)) as w1 eqn:Hw1 in *. clear Hw1 Htry.
  rewrite Hresult in Hcollect. injection Hcollect as <- _ _.
  destruct (merged_fields (child_infos (m_nodes self) w1) _
              (own_info_in_range self))
    as (_ & Hpub & _ & Hmeas & Hign & Herr & Hcpu & _).
  cbn [n_published_measurements n_ignored_measurements n_errors
       cpu_elapsed_time_us n_publishing_nodes
       set_clockwall_elapsed_time_us set_n_invalid_links].
  rewrite Hpub, Hmeas, Hign, Herr, Hcpu, !tree_sum_unfold.
  unfold own_info. rewrite exchange_counters_eq. simpl.
  assert (Hchildren :
    Forall (fun e => forall c, snd e = Some c ->
              forall w info self' w',
                collect c w = (Normal info, self', w') ->
                n_published_measurements info
                = wrap metric_bits (tree_sum m_published_counter c)
                /\ n_ignored_measurements info
                   = wrap metric_bits (tree_sum m_ignored_counter c)
                /\ n_errors info
                   = wrap metric_bits (tree_sum m_error_counter c)
                /\ cpu_elapsed_time_us info
                   = wrap time_bits (tree_sum m_cpu_us_counter c)
                /\ n_publishing_nodes info
                   = wrap node_count_bits (tree_sum publishing c))
      (m_nodes self)).
  { apply all_live_Forall in Hbelow.
    apply Forall_forall. intros e He c Hc.
    rewrite Forall_forall in Hkids, Hbelow.
    apply (Hkids e He c Hc). apply (Hbelow e He c Hc). }
  rewrite !wrap_add_l.
  split; [|split; [|split; [|split]]].
  - apply total_over_live. eapply Forall_impl; [exact Hchildren|].
    intros e He c Hc w0 i s0 w0' Hcol. now apply (He c Hc w0 i s0 w0').
  - apply total_over_live. eapply Forall_impl; [exact Hchildren|].
    intros e He c Hc w0 i s0 w0' Hcol. now apply (He c Hc w0 i s0 w0').
  - apply total_over_live. eapply Forall_impl; [exact Hchildren|].
    intros e He c Hc w0 i s0 w0' Hcol. now apply (He c Hc w0 i s0 w0').
  - apply total_over_live. eapply Forall_impl; [exact Hchildren|].
    intros e He c Hc w0 i s0 w0' Hcol. now apply (He c Hc w0 i s0 w0').
  - unfold publishing at 1.
    destruct (decide (0 < wrap metric_bits (m_published_counter self)));
      rewrite ?wrap_add_l; apply total_over_live;
      (eapply Forall_impl; [exact Hchildren|]);
      intros e He c Hc w0 i s0 w0' Hcol; now apply (He c Hc w0 i s0 w0').
Qed.

Lemma tree_sum_at_zero (f : t -> Z) :
  (forall n, counters_at_zero n -> f n = 0) ->
  forall self, all_nodes counters_at_zero self -> tree_sum f self = 0.
Proof.
  intros Hf. induction self as [self Hkids] using tree_ind. intros Hall.
  apply all_nodes_unfold in Hall. destruct Hall as [Hself Hbelow].
  rewrite tree_sum_unfold, (Hf self Hself), over_live_zero; [reflexivity|].
  apply all_live_Forall in Hbelow.
  apply Forall_forall. intros e He c Hc.
  rewrite Forall_forall in Hkids, Hbelow.
  apply (Hkids e He c Hc). apply (Hbelow e He c Hc).
Qed.

(** X12. In a tree whose hooks publish nothing and return, [collect]
    reports the running counters as they stand, summed over the root and
    the live nodes reachable from it: the measurements published, ignored
    and failed by the calls of [publish] made since the last [collect], the
    time spent in them, and the number of nodes that published at least
    one measurement. *)
Theorem collect_reports_the_running_counters self w :
  all_nodes quiet self ->
  exists info w',
    collect self w = (Normal info, collected self, w')
    /\ n_published_measurements info
       = wrap metric_bits (tree_sum m_published_counter self)
    /\ n_ignored_measurements info
       = wrap metric_bits (tree_sum m_ignored_counter self)
    /\ n_errors info = wrap metric_bits (tree_sum m_error_counter self)
    /\ cpu_elapsed_time_us info
       = wrap time_bits (tree_sum m_cpu_us_counter self)
    /\ n_publishing_nodes info
       = wrap node_count_bits (tree_sum publishing self).
Proof.
  intros Hquiet.
  destruct (collect_returns self w) as (info & w' & Hcollect & _).
  exists info, w'. split; [exact Hcollect|].
  eapply quiet_collect_totals; eassumption.
Qed.

(** X13. With no [publish] in between, a second [collect] returns every
    counter field at zero: in a tree whose hooks publish nothing and
    return, the [collect] that follows another reports no measurement
    published or ignored, no error, no time, no publishing node and no
    invalid link. *)
Theorem second_collect_reports_zero self w :
  all_nodes quiet self ->
  exists info1 self1 w1,
    collect self w = (Normal info1, self1, w1)
    /\ forall w2,
         exists info2 w2',
           collect self1 w2 = (Normal info2, self1, w2')
           /\ n_published_measurements info2 = 0
           /\ n_ignored_measurements info2 = 0
           /\ n_errors info2 = 0
           /\ cpu_elapsed_time_us info2 = 0
           /\ n_publishing_nodes info2 = 0
           /\ n_invalid_links info2 = 0.
Proof.
  intros Hquiet.
  destruct (collect_returns self w) as (info1 & w1 & Hfirst & _).
  destruct (collected_settles self) as (Hidem & _ & _ & Herased).
  exists info1, (collected self), w1. split; [exact Hfirst|]. intros w2.
  destruct (collect_returns (collected self) w2)
    as (info2 & w2' & Hsecond & _).
  assert (Hquiet' : all_nodes quiet (collected self)).
  { apply collected_keeps; [| |exact Hquiet];
      intros n; intros; destruct n; assumption. }
  destruct (quiet_collect_totals _ Hquiet' _ _ _ _ Hsecond)
    as (Hmeas & Hign & Herr & Hcpu & Hpub).
  destruct (collect_counts_links _ _ _ _ _ Hsecond) as [_ Hinv].
  pose proof (collected_at_zero self) as Hzero.
  exists info2, w2'. rewrite Hidem in Hsecond. split; [exact Hsecond|].
  rewrite Hmeas, Hign, Herr, Hcpu, Hpub, Hinv, Herased.
  rewrite !tree_sum_at_zero, !wrap_0; try exact Hzero; try tauto;
    unfold counters_at_zero; intros n (Hp & Hi & He & Hc); try assumption.
  unfold publishing. rewrite Hp, wrap_0.
  destruct (decide (0 < 0)); [lia|reflexivity].
Qed.

End QuietProperties.

Section LookupProperties.
Import MonitorableObject.
Context `{Headers}.

Implicit Types (self p : t) (w : World) (name : ElementId)
  (nodes : registry).

(** *** Looking names up after [collect] *)

Lemma find_above name nodes :
  Forall (fun e => String.compare name (fst e) = Lt) nodes ->
  find name nodes = None.
Proof.
  destruct 1 as [|[k v] rest Hk Hrest]; simpl; [reflexivity|].
  simpl in Hk. now rewrite Hk.
Qed.

Lemma Forall_prune (P : ElementId -> Prop) (f : t -> t) nodes :
  Forall (fun e => P (fst e)) nodes ->
  Forall (fun e => P (fst e)) (prune f nodes).
Proof.
  induction 1 as [|[key [c|]] rest Hc Hrest IH]; simpl; auto.
Qed.

Lemma ordered_prune (f : t -> t) nodes :
  ordered nodes -> ordered (prune f nodes).
Proof.
  induction nodes as [|[key [c|]] rest IH]; simpl; try tauto.
  intros [Hhead Hrest]. split; [|auto].
  apply (Forall_prune (fun k => String.compare key k = Lt)). exact Hhead.
Qed.

Lemma find_prune (f : t -> t) name nodes :
  ordered nodes ->
  find name (prune f nodes)
  = match find name nodes with
    | Some (Some c) => Some (Some (f c))
    | _ => None
    end.
Proof.
  induction nodes as [|[key [c|]] rest IH]; simpl; intros Hordered.
  - reflexivity.
  - destruct Hordered as [_ Hrest].
    destruct (String.compare name key); auto.
  - destruct Hordered as [Hhead Hrest].
    destruct (String.compare name key) eqn:Hcmp; [| |auto].
    + apply String.compare_eq_iff in Hcmp. subst key.
      apply find_above.
      apply (Forall_prune (fun k => String.compare name k = Lt)).
      exact Hhead.
    + apply find_above.
      apply (Forall_prune (fun k => String.compare name k = Lt)).
      eapply Forall_impl; [exact Hhead|].
      intros e He. simpl in *. eapply compare_lt_trans; eassumption.
Qed.

(** X14. On a node whose registry is a well-formed map, after [collect]
    a name is found exactly when it was found live before: a name that
    resolved to a live child resolves to that child (collected in turn), a
    name whose entry was expired is not found any more, a name that was not
    there is still not there; and the registry is still a well-formed
    map. *)
Theorem find_after_collect self w :
  ordered (m_nodes self) ->
  exists info self' w',
    collect self w = (Normal info, self', w')
    /\ ordered (m_nodes self')
    /\ forall name,
         find name (m_nodes self')
         = match find name (m_nodes self) with
           | Some (Some c) => Some (Some (collected c))
           | Some None => None
           | None => None
           end.
Proof.
  intros Hordered.
  destruct (collect_returns self w) as (info & w' & Hcollect & _).
  exists info, (collected self), w'. split; [exact Hcollect|].
  rewrite m_nodes_collected. split; [now apply ordered_prune|].
  intros name. rewrite find_prune by exact Hordered.
  destruct (find name (m_nodes self)) as [[c|]|]; reflexivity.
Qed.

(** *** A hook that returns *)

(** X15. When the generation hook returns, the [try] block of [collect]
    counts no error and reports nothing: the object and the world are as
    the [publish] calls of the hook left them, and the errors in the
    result are those the calls of [publish] counted, with those of the
    children. *)
Theorem hook_that_returns_counts_no_error self w :
  exit (m_generator self) = hook_returns ->
  let s := (self, snd (collect_enter self w)) in
  let s0 := run_publishes (publishes (m_generator self)) s in
  exists info w',
    try_generate_opmon_data s = (Normal tt, s0)
    /\ collect self w = (Normal info, collected self, w')
    /\ n_errors info
       = wrap metric_bits
           (m_error_counter (fst s0)
            + total n_errors (child_infos (m_nodes self) (snd s0))).
Proof.
  intros Hexit s s0. subst s0 s.
  set (s := (self, snd (collect_enter self w))).
  pose proof (try_generate_opmon_data_eq s) as Htry.
  change (fst s) with self in *. rewrite Hexit in Htry. cbv zeta in Htry.
  set (s0 := run_publishes (publishes (m_generator self)) s) in *.
  assert (Htry' : try_generate_opmon_data s = (Normal tt, (fst s0, snd s0)))
    by (rewrite Htry; now rewrite <- surjective_pairing).
  destruct (collect_result _ _ _ _ Htry') as (w2 & Hresult & _).
  destruct (merged_fields (child_infos (m_nodes self) (snd s0)) _
              (own_info_in_range (fst s0)))
    as (_ & _ & _ & _ & _ & Herr & _).
  eexists _, _. split; [exact Htry|].
  split; [exact Hresult|].
  cbn [n_errors set_clockwall_elapsed_time_us set_n_invalid_links].
  rewrite Herr. unfold own_info. rewrite exchange_counters_eq. simpl.
  rewrite wrap_add_l. reflexivity.
Qed.

End LookupProperties.

Section RegisterThenCollect.
Import MonitorableObject.
Context `{Headers}.

Implicit Types (self p : t) (w : World) (name : ElementId)
  (nodes : registry).

(** *** Registering, then collecting *)

Lemma over_live_assign (measure : t -> Z) name p nodes :
  (forall holder, find name nodes <> Some (Some holder)) ->
  over_live measure (assign name (Some p) nodes)
  = measure p + over_live measure nodes.
Proof.
  induction nodes as [|[k [c|]] rest IH]; simpl; intros Hfree.
  - reflexivity.
  - destruct (String.compare name k) eqn:Hcmp; simpl.
    + exfalso. apply (Hfree c). reflexivity.
    + reflexivity.
    + rewrite IH by exact Hfree. lia.
  - destruct (String.compare name k) eqn:Hcmp; simpl; auto.
Qed.

Lemma stale_here_assign name p nodes :
  stale_here (assign name (Some p) nodes)
  = stale_here nodes
    - match find name nodes with Some None => 1 | _ => 0 end.
Proof.
  induction nodes as [|[k [c|]] rest IH]; simpl.
  - reflexivity.
  - destruct (String.compare name k) eqn:Hcmp;
      repeat rewrite stale_here_live; lia.
  - destruct (String.compare name k) eqn:Hcmp;
      repeat rewrite stale_here_live; repeat rewrite stale_here_expired;
      lia.
Qed.

Lemma length_assign name p nodes :
  Z.of_nat (length (assign name (Some p) nodes))
  = Z.of_nat (length nodes)
    + match find name nodes with None => 1 | Some _ => 0 end.
Proof.
  induction nodes as [|[k v] rest IH]; simpl length; simpl find.
  - reflexivity.
  - destruct (String.compare name k) eqn:Hcmp; simpl length;
      rewrite ?Nat2Z.inj_succ; try lia.
Qed.

(** X16. A registration that succeeds shows in the next [collect]: the
    tree of the parent has gained the live nodes of the child; its
    registry entries have grown by those of the child, and by one more
    when the name was new; a stale entry that the registration took over
    is no longer among the stale links; and [n_registered_nodes] of the
    next [collect] is the new number of registry entries. *)
Theorem register_node_then_collect name p self w :
  (forall holder, find name (m_nodes self) <> Some (Some holder)) ->
  let fresh :=
    match find name (m_nodes self) with None => 1 | Some _ => 0 end in
  exists self' p' w',
    register_node name p self w = (Normal tt, self', p', w')
    /\ live_nodes self' = live_nodes self + live_nodes p
    /\ registry_links self' = registry_links self + fresh + registry_links p
    /\ stale_links self' = stale_links self - (1 - fresh) + stale_links p
    /\ forall w2,
         exists info w2',
           collect self' w2 = (Normal info, collected self', w2')
           /\ n_registered_nodes info
              = wrap node_count_bits
                  (registry_links self + fresh + registry_links p).
Proof.
  intros Hfree fresh.
  set (p' := inherit_parent_properties self (set_opmon_name name p)).
  set (self' := set_nodes (assign name (Some p') (m_nodes self)) self).
  assert (Hp' : live_nodes p' = live_nodes p
                /\ registry_links p' = registry_links p
                /\ stale_links p' = stale_links p).
  { destruct (inherit_properties_keeps (set_opmon_name name p)
                (m_facility self) (get_opmon_id self) (get_opmon_level self))
      as (_ & _ & _ & _ & _ & _ & _ & Hlive & Hreg & Hstale).
    subst p'. unfold inherit_parent_properties.
    rewrite Hlive, Hreg, Hstale. destruct p; auto. }
  destruct Hp' as (Hlive & Hreg & Hstale).
  assert (Hmeasures :
    live_nodes self' = live_nodes self + live_nodes p
    /\ registry_links self' = registry_links self + fresh + registry_links p
    /\ stale_links self' = stale_links self - (1 - fresh) + stale_links p).
  { rewrite (live_nodes_unfold self'), (registry_links_unfold self'),
      (stale_links_unfold self').
    rewrite (live_nodes_unfold self), (registry_links_unfold self),
      (stale_links_unfold self).
    subst self'. cbn [m_nodes set_nodes].
    rewrite !over_live_assign by exact Hfree.
    rewrite stale_here_assign, length_assign, Hlive, Hreg, Hstale.
    subst fresh.
    destruct (find name (m_nodes self)) as [[holder|]|] eqn:Hfind;
      [exfalso; apply (Hfree holder); reflexivity| |]; lia. }
  assert (Hregister :
    exists w', register_node name p self w = (Normal tt, self', p', w')).
  { unfold register_node.
    destruct (find name (m_nodes self)) as [[holder|]|] eqn:Hfind;
      [exfalso; apply (Hfree holder); reflexivity| |];
      simpl; eexists; reflexivity. }
  destruct Hregister as (w' & Hregister).
  exists self', p', w'. split; [exact Hregister|].
  destruct Hmeasures as (Hl & Hr & Hs).
  split; [exact Hl|]. split; [exact Hr|]. split; [exact Hs|].
  intros w2.
  destruct (collect_returns self' w2) as (info & w2' & Hcollect & _).
  destruct (collect_counts_links _ _ _ _ _ Hcollect) as [Hcount _].
  exists info, w2'. split; [exact Hcollect|]. now rewrite Hcount, Hr.
Qed.

End RegisterThenCollect.

(** ** More on the container *)

Section FlatteningProperties.
Import OpMonContainer.

Implicit Types (m : Message) (e entry : OpMonEntry) (f : FieldDescriptor)
  (c : container).

Lemma add_field_header m entry f :
  time (add_field m entry f) = time entry
  /\ origin (add_field m entry f) = origin entry
  /\ opmon_id (add_field m entry f) = opmon_id entry
  /\ measurement (add_field m entry f) = measurement entry.
Proof.
  unfold add_field. destruct (is_repeated f); [tauto|].
  destruct (cpp_type f); simpl; tauto.
Qed.

Lemma fold_add_field_header m fields : forall entry,
  let built := fold_left (add_field m) fields entry in
  time built = time entry
  /\ origin built = origin entry
  /\ opmon_id built = opmon_id entry
  /\ measurement built = measurement entry.
Proof.
  induction fields as [|f fields IH]; intros entry; simpl; [tauto|].
  destruct (IH (add_field m entry f)) as (-> & -> & -> & ->).
  apply add_field_header.
Qed.

Lemma add_field_other_key m entry f k :
  name f <> k -> data (add_field m entry f) !! k = data entry !! k.
Proof.
  intros Hne. unfold add_field. destruct (is_repeated f); [reflexivity|].
  destruct (cpp_type f); simpl; try reflexivity.
  now rewrite lookup_insert_ne.
Qed.

Lemma fold_add_field_other_key m fields k : forall entry,
  k ∉ (name <$> fields) ->
  data (fold_left (add_field m) fields entry) !! k = data entry !! k.
Proof.
  induction fields as [|f fields IH]; intros entry Hk; simpl; [reflexivity|].
  rewrite fmap_cons in Hk. apply not_elem_of_cons in Hk as [Hne Hrest].
  rewrite IH by exact Hrest. apply add_field_other_key. congruence.
Qed.

Lemma add_field_keeps_key m entry f k :
  is_Some (data entry !! k) -> is_Some (data (add_field m entry f) !! k).
Proof.
  intros Hk. unfold add_field. destruct (is_repeated f); [exact Hk|].
  destruct (cpp_type f); simpl; try exact Hk.
  destruct (decide (name f = k)) as [->|Hne].
  - rewrite lookup_insert_eq. eauto.
  - now rewrite lookup_insert_ne.
Qed.

Lemma fold_add_field_keeps_key m fields k : forall entry,
  is_Some (data entry !! k) ->
  is_Some (data (fold_left (add_field m) fields entry) !! k).
Proof.
  induction fields as [|f fields IH]; intros entry Hk; simpl; [exact Hk|].
  apply IH. now apply add_field_keeps_key.
Qed.

Lemma fold_add_field_value m fields : forall entry f,
  NoDup (name <$> fields) ->
  f ∈ fields ->
  kind_mapped f ->
  data (fold_left (add_field m) fields entry) !! name f
  = Some (int4_value (GetInt32 m f)).
Proof.
  induction fields as [|f0 fields IH]; intros entry f Hnodup Hin Hkind.
  - apply elem_of_nil in Hin. contradiction.
  - rewrite fmap_cons in Hnodup. apply NoDup_cons in Hnodup as [Hfresh Hnodup].
    apply elem_of_cons in Hin as [->|Hin]; simpl.
    + rewrite fold_add_field_other_key by exact Hfresh.
      rewrite add_field_stores by exact Hkind. simpl.
      apply lookup_insert_eq.
    + now apply IH.
Qed.

Lemma size_pos_iff (d : gmap string OpMonValue) : (0 < size d)%nat <-> d <> ∅.
Proof.
  rewrite <- map_size_non_empty_iff. lia.
Qed.

(** X17. The data of the entry that [add] builds has a key for the name
    of every field that is not repeated and of kind [CPPTYPE_INT32], and no
    other key. *)
Theorem data_keys_are_the_mapped_fields timestamp m id k :
  is_Some (data (build_entry timestamp m id) !! k)
  <-> exists f, f ∈ GetDescriptor m /\ name f = k /\ kind_mapped f.
Proof.
  split.
  - intros [v Hk]. eapply build_entry_key. exact Hk.
  - intros (f & Hin & <- & Hkind). unfold build_entry.
    generalize (set_measurement (GetTypeName m)
                  (set_opmon_id id (set_time timestamp default_entry))).
    induction (GetDescriptor m) as [|f0 fields IH]; intros entry.
    + apply elem_of_nil in Hin. contradiction.
    + apply elem_of_cons in Hin as [->|Hin]; simpl.
      * apply fold_add_field_keeps_key.
        rewrite add_field_stores by exact Hkind. simpl.
        rewrite lookup_insert_eq. eauto.
      * now apply IH.
Qed.

(** X18. When a measurement has at least one field that is not repeated
    and of kind [CPPTYPE_INT32], [add] appends exactly one entry after
    those the container had: it carries the time and the identifier given
    to [add] and the type name of the measurement, and under the name of
    every such field the 32-bit integer that the reflection reads for it.
    The names of the fields of a descriptor are distinct. *)
Theorem add_appends_the_flattened_entry timestamp m id c :
  NoDup (name <$> GetDescriptor m) ->
  Exists kind_mapped (GetDescriptor m) ->
  exists e,
    entries (add timestamp m id c) = entries c ++ [e]
    /\ time e = timestamp
    /\ opmon_id e = id
    /\ measurement e = GetTypeName m
    /\ forall f, f ∈ GetDescriptor m -> kind_mapped f ->
         data e !! name f = Some (int4_value (GetInt32 m f)).
Proof.
  intros Hnodup Hexists.
  assert (Hvalue : forall f, f ∈ GetDescriptor m -> kind_mapped f ->
            data (build_entry timestamp m id) !! name f
            = Some (int4_value (GetInt32 m f))).
  { intros f Hin Hkind. unfold build_entry.
    now apply fold_add_field_value. }
  exists (build_entry timestamp m id).
  split; [|split; [|split; [|split; [|exact Hvalue]]]].
  - unfold add, entries.
    destruct (decide (0 < size (data (build_entry timestamp m id)))%nat)
      as [_|Hzero]; [reflexivity|].
    exfalso. apply Hzero, size_pos_iff. intros Hempty.
    apply Exists_exists in Hexists as (f & Hin & Hkind).
    specialize (Hvalue f Hin Hkind).
    rewrite Hempty, lookup_empty in Hvalue. discriminate.
  - unfold build_entry.
    destruct (fold_add_field_header m (GetDescriptor m)
                (set_measurement (GetTypeName m)
                   (set_opmon_id id (set_time timestamp default_entry))))
      as (-> & _). reflexivity.
  - unfold build_entry.
    destruct (fold_add_field_header m (GetDescriptor m)
                (set_measurement (GetTypeName m)
                   (set_opmon_id id (set_time timestamp default_entry))))
      as (_ & _ & -> & _). reflexivity.
  - unfold build_entry.
    destruct (fold_add_field_header m (GetDescriptor m)
                (set_measurement (GetTypeName m)
                   (set_opmon_id id (set_time timestamp default_entry))))
      as (_ & _ & _ & ->). reflexivity.
Qed.

Lemma add_entries_eq timestamp m id c :
  entries (add timestamp m id c)
  = entries c
    ++ List.filter (fun e => bool_decide (data e <> ∅))
         [build_entry timestamp m id].
Proof.
  unfold add, entries. cbn [List.filter].
  destruct (decide (0 < size (data (build_entry timestamp m id)))%nat)
    as [Hpos|Hzero].
  - apply size_pos_iff in Hpos.
    rewrite bool_decide_eq_true_2 by exact Hpos. reflexivity.
  - rewrite size_pos_iff in Hzero.
    rewrite bool_decide_eq_false_2 by exact Hzero.
    now rewrite app_nil_r.
Qed.

(** X19. A container is an append-only record of the measurements that
    flatten to something: after any sequence of calls of [add] it holds the
    entries it held before, in their order, followed by the entries built
    for the calls, in the order of the calls, without those that have no
    data. So it never holds more new entries than calls were made. *)
Theorem container_is_append_only calls : forall c,
  entries (run calls c)
  = entries c
    ++ List.filter (fun e => bool_decide (data e <> ∅))
         (List.map (fun '(timestamp, m, id) => build_entry timestamp m id)
            calls)
  /\ (length (entries (run calls c))
      <= length (entries c) + length calls)%nat.
Proof.
  induction calls as [|[[timestamp m] id] calls IH]; intros c.
  - simpl. rewrite app_nil_r. split; [reflexivity|lia].
  - change (run (((timestamp, m), id) :: calls) c)
      with (run calls (add timestamp m id c)).
    destruct (IH (add timestamp m id c)) as [Heq Hlen].
    split.
    + rewrite Heq, add_entries_eq, <- app_assoc, <- List.filter_app.
      reflexivity.
    + assert (length (entries (add timestamp m id c))
              <= S (length (entries c)))%nat.
      { destruct (add_entries timestamp m id c) as [->|[-> _]];
          rewrite ?length_app; simpl; lia. }
      simpl length. lia.
Qed.

End FlatteningProperties.

(** ** Operations in sequence *)

Section SequenceProperties.
Import MonitorableObject.
Context `{Headers}.

Implicit Types (self p q : t) (w : World) (name : ElementId)
  (nodes : registry).

(** X20. A name that has just been registered is taken: a second
    [register_node] with the same name, the first child being alive,
    throws [NonUniqueNodeName] and leaves the parent, its registry and the
    second child as they were. *)
Theorem register_node_twice_is_refused name p q self w :
  (forall holder, find name (m_nodes self) <> Some (Some holder)) ->
  exists self' p' w',
    register_node name p self w = (Normal tt, self', p', w')
    /\ find name (m_nodes self') = Some (Some p')
    /\ forall w2,
         register_node name q self' w2
         = (Raised (ThrownIssue
                      (mkIssue (NonUniqueNodeName name
                                  (to_string (get_opmon_id self))) None)),
            self', q, w2).
Proof.
  intros Hfree.
  assert (Hsecond : forall self' p',
    m_nodes self' = assign name (Some p') (m_nodes self) ->
    get_opmon_id self' = get_opmon_id self ->
    find name (m_nodes self') = Some (Some p')
    /\ forall w2,
         register_node name q self' w2
         = (Raised (ThrownIssue
                      (mkIssue (NonUniqueNodeName name
                                  (to_string (get_opmon_id self))) None)),
            self', q, w2)).
  { intros self' p' Hnodes Hid.
    assert (Hfind : find name (m_nodes self') = Some (Some p'))
      by (rewrite Hnodes; apply find_assign_same).
    split; [exact Hfind|]. intros w2.
    unfold register_node. rewrite Hfind, Hid. reflexivity. }
  unfold register_node at 1.
  destruct (find name (m_nodes self)) as [[holder|]|] eqn:Hfind;
    [exfalso; apply (Hfree holder); reflexivity| |];
    simpl; eexists _, _, _; (split; [reflexivity|]);
    apply Hsecond; destruct self; reflexivity.
Qed.

(** X21. Pruning makes a name new again: on a registry that is a
    well-formed map, once [collect] has erased the expired entry of a name,
    [register_node] takes the name without the warning that overwriting a
    stale entry gives; the only diagnostic is the trace of the
    registration. *)
Theorem register_node_after_collect_is_fresh name p self w :
  ordered (m_nodes self) ->
  find name (m_nodes self) = Some None ->
  exists info self1 w1,
    collect self w = (Normal info, self1, w1)
    /\ find name (m_nodes self1) = None
    /\ exists self2 p2 w2,
         register_node name p self1 w1 = (Normal tt, self2, p2, w2)
         /\ find name (m_nodes self2) = Some (Some p2)
         /\ diagnostics w2
            = diagnostics w1
              ++ [TLOG ("Node " +:+ name +:+ " registered to "
                        +:+ to_string (get_opmon_id self))].
Proof.
  intros Hordered Hstale.
  destruct (collect_returns self w) as (info & w1 & Hcollect & _).
  assert (Hgone : find name (m_nodes (collected self)) = None).
  { rewrite m_nodes_collected, find_prune by exact Hordered.
    now rewrite Hstale. }
  exists info, (collected self), w1.
  split; [exact Hcollect|]. split; [exact Hgone|].
  unfold register_node. rewrite Hgone.
  eexists _, _, _. split; [reflexivity|]. simpl.
  split; [apply find_assign_same|].
  rewrite collected_unfold. destruct self; reflexivity.
Qed.

Lemma tree_sum_counters_only (f : t -> Z) self self' :
  counters_only self self' ->
  tree_sum f self' - f self' = tree_sum f self - f self.
Proof.
  intros (Hnodes & _). rewrite !tree_sum_unfold, Hnodes. lia.
Qed.

(** X22. What [publish] counts, the next [collect] reports: in a tree
    whose hooks publish nothing, after one call of [publish] on the root
    that gets to the facility, [collect] reports one published measurement
    more than the running counters of the tree held when the facility
    takes the entry, and one error more when it throws; the other of the
    two fields, and the ignored measurements, are as the running counters
    were. *)
Theorem publish_then_collect m co l self w :
  all_nodes quiet self ->
  publishable_metric l (get_opmon_level self) = true ->
  data (to_entry m co) <> ∅ ->
  let self1 := fst (publish m co l self w) in
  let w1 := snd (publish m co l self w) in
  let taken := accepts (m_facility self) (stamped m co self w) in
  exists info w',
    collect self1 w1 = (Normal info, collected self1, w')
    /\ n_published_measurements info
       = wrap metric_bits
           (tree_sum m_published_counter self + if taken then 1 else 0)
    /\ n_errors info
       = wrap metric_bits
           (tree_sum m_error_counter self + if taken then 0 else 1)
    /\ n_ignored_measurements info
       = wrap metric_bits (tree_sum m_ignored_counter self).
Proof.
  intros Hquiet Hlevel Hdata. cbv zeta.
  pose proof (publish_counters_only m co l self w) as Hframe.
  pose proof (tree_sum_counters_only m_published_counter _ _ Hframe) as Hp.
  pose proof (tree_sum_counters_only m_error_counter _ _ Hframe) as He.
  pose proof (tree_sum_counters_only m_ignored_counter _ _ Hframe) as Hi.
  destruct (publish_forwards_counters m co l self w Hlevel Hdata)
    as (Hpub & Herr & Hign).
  set (self1 := fst (publish m co l self w)) in *.
  set (w1 := snd (publish m co l self w)) in *.
  assert (Hquiet1 : all_nodes quiet self1).
  { apply all_nodes_unfold in Hquiet. apply all_nodes_unfold.
    destruct Hframe as (Hnodes & Hgen & _). rewrite Hnodes.
    unfold quiet in *. rewrite Hgen. exact Hquiet. }
  destruct (collect_returns self1 w1) as (info & w' & Hcollect & _).
  destruct (quiet_collect_totals _ Hquiet1 _ _ _ _ Hcollect)
    as (Hmeas & Hignored & Herrors & _).
  exists info, w'. split; [exact Hcollect|].
  rewrite Hmeas, Herrors, Hignored.
  replace (tree_sum m_published_counter self1)
    with (tree_sum m_published_counter self - m_published_counter self
          + m_published_counter self1) by lia.
  replace (tree_sum m_error_counter self1)
    with (tree_sum m_error_counter self - m_error_counter self
          + m_error_counter self1) by lia.
  replace (tree_sum m_ignored_counter self1)
    with (tree_sum m_ignored_counter self) by lia.
  rewrite Hpub, Herr.
  destruct (accepts (m_facility self) (stamped m co self w));
    rewrite ?wrap_add_r; repeat split; f_equal; lia.
Qed.

End SequenceProperties.

(** ** The further statements on concrete objects *)

Section FurtherEvaluations.
Import MonitorableObject Sample.

#[local] Existing Instance headers.

Lemma root_is_ordered : ordered (m_nodes root).
Proof. simpl. repeat constructor. Defined.

Lemma root_is_quiet : all_nodes quiet root.
Proof. simpl. unfold quiet. simpl. tauto. Defined.

(** X1: a new name [C] on the sample root. *)
Lemma register_node_on_fresh_name_witness :
  exists self' w',
    register_node "C" (leaf "N") root world
    = (Normal tt, self',
       inherit_parent_properties root (set_opmon_name "C" (leaf "N")), w')
    /\ length (m_nodes self') = 3%nat.
Proof.
  destruct (register_node_on_fresh_name (H:=headers) "C" (leaf "N") root world
              eq_refl) as (self' & w' & Hreg & _ & _ & Hlen & _).
  exists self', w'. split; [exact Hreg|exact Hlen].
Defined.

(** X2: the registry of the sample root after a registration. *)
Lemma register_node_keeps_keys_ordered_witness :
  ordered
    (m_nodes (snd (fst (fst (register_node "AB" (leaf "N") root world))))).
Proof.
  exact (register_node_keeps_keys_ordered (H:=headers) "AB" (leaf "N") root
           world root_is_ordered).
Defined.

(** X7: the sample root is at level 0 throughout. *)
Lemma set_opmon_level_at_level_is_identity_witness :
  set_opmon_level 0 root = root.
Proof.
  apply set_opmon_level_at_level_is_identity. simpl. tauto.
Defined.

(** X8: the sample measurement, at the level of the node. *)
Lemma publish_forwards_stamped_entry_witness :
  sink (snd (publish measurement_x5 ∅ 0 (leaf "A") world))
  = [("accepting"%string, stamped measurement_x5 ∅ (leaf "A") world)]
  /\ m_published_counter (fst (publish measurement_x5 ∅ 0 (leaf "A") world))
     = 1.
Proof.
  assert (Hdata : data (to_entry measurement_x5 ∅) <> ∅).
  { intros Hempty.
    assert (Hx : data (to_entry measurement_x5 ∅) !! "x"
                 = Some (int4_value 5)) by (vm_compute; reflexivity).
    rewrite Hempty, lookup_empty in Hx. discriminate. }
  destruct (publish_forwards_stamped_entry (H:=headers) measurement_x5 ∅ 0
              (leaf "A") world eq_refl Hdata)
    as (Hsink & _ & _ & _ & _ & _ & Hcounters).
  split; [exact Hsink|]. exact (proj1 Hcounters).
Defined.

(** X9: two measurements of level 1 on a node of level 0. *)
Lemma ignored_publishes_accumulate_witness :
  m_ignored_counter
    (fst (run_publishes
            [{| call_message := measurement_x5; call_origin := ∅;
                call_level := 1 |};
             {| call_message := measurement_unmapped; call_origin := ∅;
                call_level := 1 |}]
            (leaf "A", world)))
  = 2.
Proof.
  refine (proj1 (ignored_publishes_accumulate (H:=headers) _ (leaf "A") world
                   _ eq_refl)).
  repeat constructor.
Defined.

(** X12: the sample root has no counter running. *)
Lemma collect_reports_the_running_counters_witness :
  exists info w',
    collect root world = (Normal info, collected root, w')
    /\ n_published_measurements info = 0.
Proof.
  destruct (collect_reports_the_running_counters (H:=headers) root world
              root_is_quiet) as (info & w' & Hcollect & Hpublished & _).
  exists info, w'. split; [exact Hcollect|exact Hpublished].
Defined.

(** X13: two calls of [collect] on the sample root. *)
Lemma second_collect_reports_zero_witness :
  exists info1 self1 w1 info2 w2,
    collect root world = (Normal info1, self1, w1)
    /\ collect self1 w1 = (Normal info2, self1, w2)
    /\ n_errors info2 = 0
    /\ n_invalid_links info2 = 0.
Proof.
  destruct (second_collect_reports_zero (H:=headers) root world root_is_quiet)
    as (info1 & self1 & w1 & Hfirst & Hsecond).
  destruct (Hsecond w1)
    as (info2 & w2 & Hcollect & _ & _ & Herrors & _ & _ & Hinvalid).
  exists info1, self1, w1, info2, w2. auto.
Defined.

(** X14: the names of the sample root after [collect]. *)
Lemma find_after_collect_witness :
  exists info self' w',
    collect root world = (Normal info, self', w')
    /\ find "A" (m_nodes self') = Some (Some (collected (leaf "A")))
    /\ find "B" (m_nodes self') = None.
Proof.
  destruct (find_after_collect (H:=headers) root world root_is_ordered)
    as (info & self' & w' & Hcollect & _ & Hfind).
  exists info, self', w'. split; [exact Hcollect|].
  split; [exact (Hfind "A"%string)|exact (Hfind "B"%string)].
Defined.

(** X15: a leaf with the default hook. *)
Lemma hook_that_returns_counts_no_error_witness :
  exists info w',
    collect (leaf "A") world = (Normal info, collected (leaf "A"), w')
    /\ n_errors info = 0.
Proof.
  destruct (hook_that_returns_counts_no_error (H:=headers) (leaf "A") world
              eq_refl) as (info & w' & _ & Hcollect & Herrors).
  exists info, w'. split; [exact Hcollect|exact Herrors].
Defined.

(** X16: the name of the child that is gone, taken over on the sample
    root: two registry entries as before, and no stale link left. *)
Lemma register_node_then_collect_witness :
  exists self' p' w',
    register_node "B" (leaf "N") root world = (Normal tt, self', p', w')
    /\ registry_links self' = 2
    /\ stale_links self' = 0.
Proof.
  assert (Hfree : forall holder,
            find "B" (m_nodes root) <> Some (Some holder))
    by (intros holder; discriminate).
  destruct (register_node_then_collect (H:=headers) "B" (leaf "N") root world
              Hfree) as (self' & p' & w' & Hreg & _ & Hlinks & Hstale & _).
  exists self', p', w'. split; [exact Hreg|].
  split; [exact Hlinks|exact Hstale].
Defined.

(** X18: the sample measurement in an empty container. *)
Lemma add_appends_the_flattened_entry_witness :
  exists e,
    OpMonContainer.entries
      (OpMonContainer.add 7 measurement_x5 "id" OpMonContainer.empty)
    = [e]
    /\ time e = 7
    /\ data e !! "x" = Some (int4_value 5).
Proof.
  assert (Hnodup : NoDup (name <$> GetDescriptor measurement_x5)).
  { apply (bool_decide_unpack _). vm_compute. exact I. }
  assert (Hmapped : OpMonContainer.kind_mapped field_x)
    by (split; reflexivity).
  assert (Hexists : Exists OpMonContainer.kind_mapped
                      (GetDescriptor measurement_x5))
    by (apply Exists_cons_hd; exact Hmapped).
  destruct (add_appends_the_flattened_entry 7 measurement_x5 "id"
              OpMonContainer.empty Hnodup Hexists)
    as (e & Hentries & Htime & _ & _ & Hdata).
  exists e. split; [exact Hentries|]. split; [exact Htime|].
  exact (Hdata field_x (list_elem_of_here _ _) Hmapped).
Defined.

(** X20: the name [B] registered twice on the sample root. *)
Lemma register_node_twice_is_refused_witness :
  exists self' p' w',
    register_node "B" (leaf "N") root world = (Normal tt, self', p', w')
    /\ register_node "B" (leaf "M") self' w'
       = (Raised (ThrownIssue (mkIssue (NonUniqueNodeName "B" ".R") None)),
          self', leaf "M", w').
Proof.
  assert (Hfree : forall holder,
            find "B" (m_nodes root) <> Some (Some holder))
    by (intros holder; discriminate).
  destruct (register_node_twice_is_refused (H:=headers) "B" (leaf "N")
              (leaf "M") root world Hfree)
    as (self' & p' & w' & Hfirst & _ & Hsecond).
  exists self', p', w'. split; [exact Hfirst|exact (Hsecond w')].
Defined.

(** X21: the name [B] on the sample root, after [collect]. *)
Lemma register_node_after_collect_is_fresh_witness :
  exists info self1 w1 self2 p2 w2,
    collect root world = (Normal info, self1, w1)
    /\ register_node "B" (leaf "N") self1 w1 = (Normal tt, self2, p2, w2)
    /\ diagnostics w2
       = diagnostics w1 ++ [TLOG "Node B registered to .R"].
Proof.
  destruct (register_node_after_collect_is_fresh (H:=headers) "B" (leaf "N")
              root world root_is_ordered eq_refl)
    as (info & self1 & w1 & Hcollect & _
        & self2 & p2 & w2 & Hregister & _ & Hdiagnostics).
  exists info, self1, w1, self2, p2, w2. auto.
Defined.

(** X22: the sample measurement published on a leaf, then collected. *)
Lemma publish_then_collect_witness :
  exists info w',
    collect (fst (publish measurement_x5 ∅ 0 (leaf "A") world))
      (snd (publish measurement_x5 ∅ 0 (leaf "A") world))
    = (Normal info,
       collected (fst (publish measurement_x5 ∅ 0 (leaf "A") world)), w')
    /\ n_published_measurements info = 1.
Proof.
  assert (Hdata : data (to_entry measurement_x5 ∅) <> ∅).
  { intros Hempty.
    assert (Hx : data (to_entry measurement_x5 ∅) !! "x"
                 = Some (int4_value 5)) by (vm_compute; reflexivity).
    rewrite Hempty, lookup_empty in Hx. discriminate. }
  assert (Hquiet : all_nodes quiet (leaf "A"))
    by (simpl; unfold quiet; simpl; tauto).
  destruct (publish_then_collect (H:=headers) measurement_x5 ∅ 0 (leaf "A")
              world Hquiet eq_refl Hdata)
    as (info & w' & Hcollect & Hpublished & _).
  exists info, w'. split; [exact Hcollect|exact Hpublished].
Defined.

End FurtherEvaluations.
